(** * pic-sorter: the photo sorter of main.go, embedded and verified

    The program reads the GPS position of every image of a directory,
    asks a reverse-geocoding service for the place and moves the image to
    [sorted_images/<country>/<state>/<state_district>/<county>/].

    Layout of this file:
    - [strings], [filepath], [fmt]: the parts of Go's standard library the
      program calls, as far as it uses them (Unix paths);
    - [Sys]: the interface to the outside world (file system, EXIF
      decoder, HTTP, JSON decoder, float formatting);
    - the functions of main.go, in a writer/state monad over [Sys];
    - [Mock]: a small test double of the outside world;
    - the predicates the statements are written with;
    - the lemmas and theorems. *)

From stdpp Require Import gmap strings list fin_maps sorting.
From Stdlib Require Import String Ascii ZArith DecimalString Lia.

Set Warnings "-register-all".
Local Open Scope string_scope.

(** ** Go strings

    A Go string is a sequence of bytes: Rocq's [string] of 8-bit [ascii]. *)

(** The line feed that ends every line printed by the program. *)
Definition LF : string := String (ascii_of_nat 10) "".

Module strings.

(** [strings.HasSuffix(s, suffix)]:
    [len(s) >= len(suffix) && s[len(s)-len(suffix):] == suffix]. *)
Definition HasSuffix (s suffix : string) : bool :=
  (String.length suffix <=? String.length s)%nat
  && String.eqb
       (String.substring (String.length s - String.length suffix)
                         (String.length suffix) s)
       suffix.

(** [strings.Join(elems, sep)]. *)
Definition Join (elems : list string) (sep : string) : string :=
  String.concat sep elems.

(** The replacement loop of [strings.Replace]: the text is read from the
    left; where [old] starts, [new] is written and the bytes of [old] are
    skipped ([skip] counts those still to be skipped), so matches do not
    overlap. *)
Fixpoint replaceFrom (old new : string) (skip : nat) (s : string) : string :=
  match s with
  | "" => ""
  | String c s' =>
      match skip with
      | S k => replaceFrom old new k s'
      | O =>
          if String.prefix old s
          then new ++ replaceFrom old new (String.length old - 1) s'
          else String c (replaceFrom old new 0 s')
      end
  end.

(** [strings.ReplaceAll(s, old, new)]. Go returns [s] itself when
    [old == new]. For an empty [old] Go inserts [new] around every
    UTF-8 sequence; that case is byte-wise here, which agrees on ASCII
    text, and the program never passes an empty pattern. *)
Definition ReplaceAll (s old new : string) : string :=
  if String.eqb old new then s
  else match old with
       | "" => replaceFrom old new 0 s ++ new
       | String _ _ => replaceFrom old new 0 s
       end.

End strings.

(** ** path/filepath on Unix *)

Module filepath.

Definition Separator : ascii := "/"%char.

Definition IsPathSeparator (c : ascii) : bool := Ascii.eqb c Separator.

Definition isDot (c : ascii) : bool := Ascii.eqb c "."%char.

(** [lazybuf.append]: the buffer of [Clean] is modelled by its contents
    [buf[0:w]]. *)
Definition append (out : string) (c : ascii) : string := out ++ String c "".

(** [r == n || os.IsPathSeparator(path[r])], for the unread rest of the
    path. *)
Definition atElemEnd (rest : string) : bool :=
  match rest with
  | "" => true
  | String c _ => IsPathSeparator c
  end.

(** The inner loop of the [..] case of [Clean], after the first [out.w--]:
    [for out.w > dotdot && !os.IsPathSeparator(out.index(out.w)) { out.w-- }];
    it returns the final [out.w]. *)
Fixpoint retreat (buf : string) (dotdot w : nat) : nat :=
  match w with
  | O => O
  | S w' =>
      if (dotdot <? w)%nat
         && negb (IsPathSeparator (default Separator (String.get w buf)))
      then retreat buf dotdot w'
      else w
  end.

(** [rooted && out.w != 1 || !rooted && out.w != 0]. *)
Definition needSep (rooted : bool) (out : string) : bool :=
  (rooted && negb (String.length out =? 1)%nat)
  || (negb rooted && negb (String.length out =? 0)%nat).

(** The loop that copies a real path element,
    [for ; r < n && !os.IsPathSeparator(path[r]); r++ { out.append(path[r]) }];
    [continue] is the main loop, entered again where the element ends. *)
Fixpoint copyElement (continue : string → string → string) (path out : string)
  {struct path} : string :=
  match path with
  | "" => continue path out
  | String c rest =>
      if IsPathSeparator c then continue path out
      else copyElement continue rest (append out c)
  end.

(** The main loop of [Clean], [for r < n { switch ... }]. [path] is the
    unread rest [path[r:]], [out] the contents of the buffer. *)
Fixpoint cleanLoop (rooted : bool) (path out : string) (dotdot : nat)
  {struct path} : string :=
  match path with
  | "" => out
  | String c rest =>
      if IsPathSeparator c then
        (* empty path element *)
        cleanLoop rooted rest out dotdot
      else if isDot c && atElemEnd rest then
        (* . element *)
        cleanLoop rooted rest out dotdot
      else
        let element :=
          (* real path element: add slash if needed, copy element *)
          let out1 := if needSep rooted out then append out Separator else out in
          copyElement (λ p o, cleanLoop rooted p o dotdot) rest (append out1 c) in
        match rest with
        | String c2 rest2 =>
            if isDot c && isDot c2 && atElemEnd rest2 then
              (* .. element: remove to last separator *)
              if (dotdot <? String.length out)%nat then
                (* can backtrack *)
                let w := retreat out dotdot (String.length out - 1) in
                cleanLoop rooted rest2 (String.substring 0 w out) dotdot
              else if negb rooted then
                (* cannot backtrack, but not rooted, so append .. element *)
                let out1 :=
                  if (0 <? String.length out)%nat then append out Separator
                  else out in
                let out2 := append (append out1 "."%char) "."%char in
                cleanLoop rooted rest2 out2 (String.length out2)
              else cleanLoop rooted rest2 out dotdot
            else element
        | "" => element
        end
  end.

(** [filepath.Clean(path)]; there is no volume name on Unix and
    [FromSlash] is the identity. *)
Definition Clean (path : string) : string :=
  match path with
  | "" => "."
  | String c rest =>
      let out :=
        if IsPathSeparator c
        then cleanLoop true rest (String Separator "") 1
        else cleanLoop false path "" 0 in
      (* Turn empty string into "." *)
      if (String.length out =? 0)%nat then "." else out
  end.

(** [filepath.Join(elem...)]: the elements from the first non-empty one
    on are joined with the separator and cleaned. *)
Fixpoint Join (elem : list string) : string :=
  match elem with
  | [] => ""
  | e :: rest =>
      if String.eqb e "" then Join rest
      else Clean (strings.Join elem (String Separator ""))
  end.

(** [for len(path) > 0 && os.IsPathSeparator(path[len(path)-1])
    { path = path[0 : len(path)-1] }], returning the final length. *)
Fixpoint stripTrailing (path : string) (n : nat) : nat :=
  match n with
  | O => O
  | S n' =>
      if IsPathSeparator (default Separator (String.get n' path))
      then stripTrailing path n'
      else n
  end.

(** [i := len(path) - 1; for i >= 0 && !os.IsPathSeparator(path[i]) { i-- }],
    returning [i + 1]. *)
Fixpoint lastElemStart (path : string) (n : nat) : nat :=
  match n with
  | O => O
  | S n' =>
      if IsPathSeparator (default Separator (String.get n' path))
      then n
      else lastElemStart path n'
  end.

(** [filepath.Base(path)]. *)
Definition Base (path : string) : string :=
  if String.eqb path "" then "."
  else
    (* Strip trailing slashes. *)
    let path1 :=
      String.substring 0 (stripTrailing path (String.length path)) path in
    (* Find the last element *)
    let i1 := lastElemStart path1 (String.length path1) in
    let path2 := String.substring i1 (String.length path1 - i1) path1 in
    (* If empty now, it had only slashes. *)
    if String.eqb path2 "" then String Separator "" else path2.

End filepath.

(** ** The name sanitizer (main.go, [sanitize]) *)

Definition sanitize (name : string) : string :=
  strings.ReplaceAll name " " "_".

(** ** Errors and results

    A Go [error] is observed only through its [Error()] text. A function
    returning [(T, error)] returns [Ok v] or [Err e]; a function returning
    only [error] returns [option error], [None] being [nil]. *)

Record error : Type := NewError { Error : string }.

Inductive result (T : Type) : Type :=
| Ok (v : T)
| Err (e : error).

Arguments Ok {T} v.
Arguments Err {T} e.

Definition isErr {T} (r : result T) : bool :=
  match r with Ok _ => false | Err _ => true end.

(** ** Decoded JSON

    What [json.Unmarshal] stores in an [interface{}]: [nil], [bool],
    [float64], [string], [[]interface{}] or [map[string]interface{}]. [F]
    is the type of [float64] values. *)

Inductive Value (F : Type) : Type :=
| JNull
| JBool (b : bool)
| JNumber (f : F)
| JString (s : string)
| JArray (elems : list (Value F))
| JObject (members : gmap string (Value F)).

Arguments JNull {F}.
Arguments JBool {F} b.
Arguments JNumber {F} f.
Arguments JString {F} s.
Arguments JArray {F} elems.
Arguments JObject {F} members.

(** ** fmt *)

Module fmt.

(** The verb [%d] on an integer. *)
Definition FormatInt (z : Z) : string := NilZero.string_of_int (Z.to_int z).

(** [fmt] prints the keys of a map in increasing order. *)
Definition sortedByKey (kvs : list (string * string)) : list (string * string) :=
  merge_sort (λ a b, String.le a.1 b.1) kvs.

(** The verb [%v] on a decoded JSON value; [formatFloat] is [%v] on a
    [float64]. *)
Fixpoint FormatValue {F : Type} (formatFloat : F → string) (v : Value F) : string :=
  match v with
  | JNull => "<nil>"
  | JBool b => if b then "true" else "false"
  | JNumber f => formatFloat f
  | JString s => s
  | JArray elems =>
      "[" ++ strings.Join (List.map (FormatValue formatFloat) elems) " " ++ "]"
  | JObject members =>
      "map["
      ++ strings.Join
           (List.map (λ kv : string * string, kv.1 ++ ":" ++ kv.2)
              (sortedByKey (map_to_list (FormatValue formatFloat <$> members))))
           " "
      ++ "]"
  end.

(** [fmt.Errorf] with the message already formatted. *)
Definition Errorf (msg : string) : error := NewError msg.

End fmt.

(** ** The outside world *)

Record DirEntry : Type := { Name : string; IsDir : bool }.

Record Response (R : Type) : Type :=
  { StatusCode : Z; Body : R }.

Arguments StatusCode {R} _.
Arguments Body {R} _.

Definition StatusOK : Z := 200.

(** [os.ModePerm], 0777. *)
Definition ModePerm : Z := 511.

(** Everything the program delegates: the file system, the EXIF decoder of
    goexif, [net/http], [encoding/json] and the formatting of [float64]
    values. An operation that touches the world takes it and returns the
    world after the call. *)
Class Sys : Type := {
  World : Type;
  float64 : Type;
  File : Type;
  Exif : Type;
  ReadCloser : Type;
  (** [%f] and [%v] on a [float64] *)
  formatFloat_f : float64 → string;
  formatFloat_v : float64 → string;
  os_Open : string → World → result File * World;
  File_Close : File → World → World;
  exif_Decode : File → World → result Exif * World;
  Exif_LatLong : Exif → result (float64 * float64);
  http_Get : string → World → result (Response ReadCloser) * World;
  Body_Close : ReadCloser → World → World;
  io_ReadAll : ReadCloser → World → result string * World;
  (** [json.Unmarshal] into a [map[string]interface{}]; a nil map is the
      empty map *)
  json_Unmarshal : string → result (gmap string (Value float64));
  os_MkdirAll : string → Z → World → option error * World;
  os_Rename : string → string → World → option error * World;
  os_ReadDir : string → World → result (list DirEntry) * World;
}.

(** The calls on the world, in the order the program makes them. *)
Inductive Event : Type :=
| EvOpen (name : string)
| EvDecode
| EvClose
| EvGet (url : string)
| EvReadAll
| EvBodyClose
| EvMkdirAll (path : string) (perm : Z)
| EvRename (oldpath newpath : string)
| EvReadDir (name : string)
| EvStdout (text : string)
| EvFatal (msg : string).

(** How a function that may end the process comes back. *)
Inductive Control : Type :=
| Returns
| Exits (code : Z).

Section Program.

Context {sys : Sys}.

(** *** The monad: the world is threaded, the calls are recorded *)

Definition M (A : Type) : Type := World → A * World * list Event.

Definition ret {A} (a : A) : M A := λ w, (a, w, []).

Definition bind {A B} (m : M A) (k : A → M B) : M B :=
  λ w, let '(a, w1, e1) := m w in
       let '(b, w2, e2) := k a w1 in
       (b, w2, (e1 ++ e2)%list).

Notation "'let*' x := m 'in' k" := (bind m (λ x, k))
  (at level 10, x name, k at level 200).
Notation "m >> k" := (bind m (λ _, k))
  (at level 100, k at level 200, right associativity).

(** A call that returns a value: [f] is the operation of [Sys]. *)
Definition call {A} (ev : Event) (f : World → A * World) : M A :=
  λ w, let '(a, w1) := f w in (a, w1, [ev]).

(** A call that returns nothing the program looks at. *)
Definition call_ (ev : Event) (f : World → World) : M unit :=
  λ w, (tt, f w, [ev]).

(** [defer cleanup()] followed by [body]: the cleanup runs when the body
    returns, on every path. *)
Definition defer {A} (cleanup : M unit) (body : M A) : M A :=
  let* a := body in cleanup >> ret a.

(** [fmt.Printf] with the text already formatted; standard output is
    part of the record of calls. *)
Definition Printf (text : string) : M unit := call_ (EvStdout text) (λ w, w).

(** *** getGeoInfo: extract GPS coordinates from an image *)

Definition getGeoInfo (imagePath : string) : M (result (float64 * float64)) :=
  let* r := call (EvOpen imagePath) (os_Open imagePath) in
  match r with
  | Err err => ret (Err err)
  | Ok file =>
      defer (call_ EvClose (File_Close file))
        (let* r := call EvDecode (exif_Decode file) in
         match r with
         | Err err => ret (Err err)
         | Ok x =>
             match Exif_LatLong x with
             | Err err => ret (Err err)
             | Ok (lat, lon) => ret (Ok (lat, lon))
             end
         end)
  end.

(** *** getString: helper to get a string from a map *)

Definition getString (data : gmap string (Value float64)) (key : string) : string :=
  match data !! key with
  | Some value => fmt.FormatValue formatFloat_v value
  | None => "Unknown"
  end.

(** *** getLocationDetails: fetch country, state, state district, county *)

Definition geocodeURL (lat lon : float64) : string :=
  "https://nominatim.openstreetmap.org/reverse?format=json&lat="
  ++ formatFloat_f lat ++ "&lon=" ++ formatFloat_f lon ++ "&zoom=10".

Definition getLocationDetails (lat lon : float64) : M (result (gmap string string)) :=
  let url := geocodeURL lat lon in
  let* r := call (EvGet url) (http_Get url) in
  match r with
  | Err err => ret (Err err)
  | Ok resp =>
      defer (call_ EvBodyClose (Body_Close (Body resp)))
        (if negb (StatusCode resp =? StatusOK)%Z then
           ret (Err (fmt.Errorf ("API error: " ++ fmt.FormatInt (StatusCode resp))))
         else
           let* r := call EvReadAll (io_ReadAll (Body resp)) in
           match r with
           | Err err => ret (Err err)
           | Ok body =>
               match json_Unmarshal body with
               | Err err => ret (Err err)
               | Ok data =>
                   match data !! "address" with
                   | Some (JObject address) =>
                       let location : gmap string string :=
                         <["country" := getString address "country"]>
                         (<["state" := getString address "state"]>
                         (<["state_district" := getString address "state_district"]>
                         (<["county" := getString address "county"]> ∅))) in
                       ret (Ok location)
                   | _ => ret (Err (fmt.Errorf "invalid address data"))
                   end
               end
           end)
  end.

(** *** moveImage: move the image to the folder of its location *)

(** [location[key]] on a [map[string]string]: the empty string when the
    key is missing. *)
Definition index (location : gmap string string) (key : string) : string :=
  default "" (location !! key).

Definition folderPath (location : gmap string string) : string :=
  filepath.Join
    [ "sorted_images";
      sanitize (index location "country");
      sanitize (index location "state");
      sanitize (index location "state_district");
      sanitize (index location "county") ].

Definition newImagePath (imagePath : string) (location : gmap string string) : string :=
  filepath.Join [folderPath location; filepath.Base imagePath].

Definition moveImage (imagePath : string) (location : gmap string string)
  : M (option error) :=
  let* r := call (EvMkdirAll (folderPath location) ModePerm)
                 (os_MkdirAll (folderPath location) ModePerm) in
  match r with
  | Some err => ret (Some err)
  | None =>
      call (EvRename imagePath (newImagePath imagePath location))
           (os_Rename imagePath (newImagePath imagePath location))
  end.

(** *** processImages: process all images in a directory *)

(** The condition of line 116. *)
Definition isImage (file : DirEntry) : bool :=
  negb (IsDir file)
  && (strings.HasSuffix (Name file) ".jpg"
      || strings.HasSuffix (Name file) ".jpeg"
      || strings.HasSuffix (Name file) ".png").

Definition movingLine (name : string) (location : gmap string string) : string :=
  "Moving " ++ name ++ " to " ++ index location "country" ++ "/"
  ++ index location "state" ++ "/" ++ index location "state_district" ++ "/"
  ++ index location "county" ++ LF.

(** The body of the loop over the directory entries; [continue] ends it. *)
Definition loopBody (directory : string) (file : DirEntry) : M unit :=
  if isImage file then
    let imagePath := filepath.Join [directory; Name file] in
    let* r := getGeoInfo imagePath in
    match r with
    | Err _ => Printf ("No GPS data found for " ++ Name file ++ LF)
    | Ok (lat, lon) =>
        let* r := getLocationDetails lat lon in
        match r with
        | Err err =>
            Printf ("Error getting location for " ++ Name file ++ ": "
                    ++ Error err ++ LF)
        | Ok location =>
            Printf (movingLine (Name file) location) >>
            let* r := moveImage imagePath location in
            match r with
            | Some err => Printf ("Error moving file: " ++ Error err ++ LF)
            | None => ret tt
            end
        end
    end
  else ret tt.

(** [for _, file := range files]. *)
Fixpoint rangeFiles (directory : string) (files : list DirEntry) : M unit :=
  match files with
  | [] => ret tt
  | file :: rest => loopBody directory file >> rangeFiles directory rest
  end.

(** [log.Fatal(err)] prints the error and exits with status 1. *)
Definition processImages (directory : string) : M Control :=
  let* r := call (EvReadDir directory) (os_ReadDir directory) in
  match r with
  | Err err => call_ (EvFatal (Error err)) (λ w, w) >> ret (Exits 1)
  | Ok files => rangeFiles directory files >> ret Returns
  end.

(** [main]: the exit status of the process. *)
Definition main : M Z :=
  let* c := processImages "images" in
  match c with
  | Exits code => ret code
  | Returns => ret 0%Z
  end.

End Program.

(** ** A test double of the outside world

    A directory [images] with fixture files, a file system that moves
    them, and a geocoder that answers from a table. It serves to run the
    program on concrete inputs. *)

Module Mock.

(** The coordinates of the fixtures, with the text Go prints for them. *)
Inductive Float : Type :=
| F0 | F37_7749 | Fm122_4194 | F51_5 | Fm0_12 | F48_85 | F2_35.

Definition format_f (f : Float) : string :=
  match f with
  | F0 => "0.000000"
  | F37_7749 => "37.774900"
  | Fm122_4194 => "-122.419400"
  | F51_5 => "51.500000"
  | Fm0_12 => "-0.120000"
  | F48_85 => "48.850000"
  | F2_35 => "2.350000"
  end.

Definition format_v (f : Float) : string :=
  match f with
  | F0 => "0"
  | F37_7749 => "37.7749"
  | Fm122_4194 => "-122.4194"
  | F51_5 => "51.5"
  | Fm0_12 => "-0.12"
  | F48_85 => "48.85"
  | F2_35 => "2.35"
  end.

(** A file is an image with or without a GPS tag, or something the EXIF
    decoder rejects. *)
Inductive FileData : Type :=
| Image (gps : option (Float * Float))
| NoExif.

Record FS : Type := {
  files : gmap string FileData;
  listing : list DirEntry;   (* what [images] lists *)
  readOnly : bool;           (* no directory can be created *)
}.

Definition quoted (s : string) : string :=
  String (ascii_of_nat 34) (s ++ String (ascii_of_nat 34) "").

(** The bodies the geocoder answers with. *)
Definition bodySanFrancisco : string :=
  "{" ++ quoted "address" ++ ":{" ++ quoted "country" ++ ":"
  ++ quoted "United States" ++ "," ++ quoted "state" ++ ":"
  ++ quoted "California" ++ "," ++ quoted "county" ++ ":"
  ++ quoted "San Francisco County" ++ "}}".

Definition bodyOcean : string := "{" ++ quoted "address" ++ ":{}}".

Definition bodyEmptyCountry : string :=
  "{" ++ quoted "address" ++ ":{" ++ quoted "country" ++ ":" ++ quoted ""
  ++ "," ++ quoted "state" ++ ":null}}".

Definition bodyNoAddress : string := "{" ++ quoted "error" ++ ":" ++ quoted "Unable to geocode" ++ "}".

Definition url (lat lon : Float) : string :=
  "https://nominatim.openstreetmap.org/reverse?format=json&lat="
  ++ format_f lat ++ "&lon=" ++ format_f lon ++ "&zoom=10".

Definition get (u : string) : result (Response string) :=
  if String.eqb u (url F37_7749 Fm122_4194)
  then Ok {| StatusCode := 200; Body := bodySanFrancisco |}
  else if String.eqb u (url F0 F0)
  then Ok {| StatusCode := 200; Body := bodyOcean |}
  else if String.eqb u (url F51_5 Fm0_12)
  then Ok {| StatusCode := 503; Body := "Service Unavailable" |}
  else if String.eqb u (url F48_85 F2_35)
  then Ok {| StatusCode := 200; Body := bodyEmptyCountry |}
  else if String.eqb u (url F2_35 F48_85)
  then Ok {| StatusCode := 200; Body := bodyNoAddress |}
  else Err (NewError "dial tcp: no route to host").

Definition unmarshal (body : string) : result (gmap string (Value Float)) :=
  if String.eqb body bodySanFrancisco
  then Ok {[ "address" :=
               JObject {[ "country" := JString "United States";
                          "state" := JString "California";
                          "county" := JString "San Francisco County" ]} ]}
  else if String.eqb body bodyOcean
  then Ok {[ "address" := JObject ∅ ]}
  else if String.eqb body bodyEmptyCountry
  then Ok {[ "address" := JObject {[ "country" := JString ""; "state" := JNull ]} ]}
  else if String.eqb body bodyNoAddress
  then Ok {[ "error" := JString "Unable to geocode" ]}
  else Err (NewError "invalid character 'S' looking for beginning of value").

Definition open (name : string) (w : FS) : result FileData * FS :=
  match files w !! name with
  | Some f => (Ok f, w)
  | None => (Err (NewError ("open " ++ name ++ ": no such file or directory")), w)
  end.

Definition decode (f : FileData) (w : FS) : result (option (Float * Float)) * FS :=
  match f with
  | Image gps => (Ok gps, w)
  | NoExif => (Err (NewError "exif: failed to find exif intro marker"), w)
  end.

Definition latLong (x : option (Float * Float)) : result (Float * Float) :=
  match x with
  | Some p => Ok p
  | None => Err (NewError "exif: tag GPSLatitude is not present")
  end.

Definition mkdirAll (path : string) (perm : Z) (w : FS) : option error * FS :=
  if readOnly w
  then (Some (NewError ("mkdir " ++ path ++ ": read-only file system")), w)
  else (None, w).

Definition rename (oldpath newpath : string) (w : FS) : option error * FS :=
  match files w !! oldpath with
  | Some f =>
      (None,
       {| files := <[newpath := f]> (delete oldpath (files w));
          listing := listing w;
          readOnly := readOnly w |})
  | None =>
      (Some (NewError ("rename " ++ oldpath ++ " " ++ newpath
                       ++ ": no such file or directory")), w)
  end.

Definition readDir (name : string) (w : FS) : result (list DirEntry) * FS :=
  if String.eqb name "images" then (Ok (listing w), w)
  else (Err (NewError ("open " ++ name ++ ": no such file or directory")), w).

Definition sys : Sys := {|
  World := FS;
  float64 := Float;
  File := FileData;
  Exif := option (Float * Float);
  ReadCloser := string;
  formatFloat_f := format_f;
  formatFloat_v := format_v;
  os_Open := open;
  File_Close := λ _ w, w;
  exif_Decode := decode;
  Exif_LatLong := latLong;
  http_Get := λ u w, (get u, w);
  Body_Close := λ _ w, w;
  io_ReadAll := λ body w, (Ok body, w);
  json_Unmarshal := unmarshal;
  os_MkdirAll := mkdirAll;
  os_Rename := rename;
  os_ReadDir := readDir;
|}.

(** The fixture directory: an image taken in San Francisco, a text
    file, an image without GPS tag, one whose position the geocoder
    refuses, one taken at sea, a subdirectory and an upper-case name. *)
Definition fixture : FS := {|
  files :=
    {[ "images/trip.jpg" := Image (Some (F37_7749, Fm122_4194));
       "images/note.txt" := NoExif;
       "images/nogps.png" := Image None;
       "images/broken.jpg" := Image (Some (F51_5, Fm0_12));
       "images/ocean.jpg" := Image (Some (F0, F0));
       "images/SHOUT.JPG" := Image (Some (F0, F0)) ]};
  listing :=
    [ {| Name := "SHOUT.JPG"; IsDir := false |};
      {| Name := "broken.jpg"; IsDir := false |};
      {| Name := "nogps.png"; IsDir := false |};
      {| Name := "note.txt"; IsDir := false |};
      {| Name := "ocean.jpg"; IsDir := false |};
      {| Name := "old.jpg"; IsDir := true |};
      {| Name := "trip.jpg"; IsDir := false |} ];
  readOnly := false;
|}.

Definition readOnlyFixture : FS :=
  {| files := files fixture; listing := listing fixture; readOnly := true |}.

(** A directory without candidate: a text file, a subdirectory and an
    upper-case name. *)
Definition textsOnly : FS := {|
  files := {[ "images/note.txt" := NoExif;
              "images/SHOUT.JPG" := Image (Some (F0, F0)) ]};
  listing :=
    [ {| Name := "SHOUT.JPG"; IsDir := false |};
      {| Name := "note.txt"; IsDir := false |};
      {| Name := "old.jpg"; IsDir := true |} ];
  readOnly := false;
|}.

(** The same world seen from a working directory that has no [images]:
    no directory can be listed. *)
Definition sysWithoutImages : Sys := {|
  World := FS;
  float64 := Float;
  File := FileData;
  Exif := option (Float * Float);
  ReadCloser := string;
  formatFloat_f := format_f;
  formatFloat_v := format_v;
  os_Open := open;
  File_Close := λ _ w, w;
  exif_Decode := decode;
  Exif_LatLong := latLong;
  http_Get := λ u w, (get u, w);
  Body_Close := λ _ w, w;
  io_ReadAll := λ body w, (Ok body, w);
  json_Unmarshal := unmarshal;
  os_MkdirAll := mkdirAll;
  os_Rename := rename;
  os_ReadDir := λ name w,
    (Err (NewError ("open " ++ name ++ ": no such file or directory")), w);
|}.

End Mock.

(** ** The vocabulary of the statements *)

(** Unfolds the monad, so that the calls on the world show. *)
Ltac run_monad :=
  cbv beta iota zeta delta [bind call call_ defer ret Printf fst snd];
  cbn [app negb].

Section Vocabulary.

Context {sys : Sys}.

Import filepath.

Definition space : ascii := " "%char.
Definition underscore : ascii := "_"%char.

(** What [sanitize] does to one byte. *)
Definition sanitizeByte (c : ascii) : ascii :=
  if Ascii.eqb c space then underscore else c.

(** The three extensions the driver accepts. *)
Definition imageExtensions : list string := [".jpg"; ".jpeg"; ".png"].

(** ASCII lower case, byte by byte: how names that differ only in letter
    case are compared. *)
Definition toLowerByte (c : ascii) : ascii :=
  let n := nat_of_ascii c in
  if (65 <=? n)%nat && (n <=? 90)%nat then ascii_of_nat (n + 32) else c.

Fixpoint toLower (s : string) : string :=
  match s with
  | "" => ""
  | String c s' => String (toLowerByte c) (toLower s')
  end.

(** The four keys of a Place. *)
Definition placeKeys : list string :=
  ["country"; "state"; "state_district"; "county"].

(** The Place [getLocationDetails] builds from the address object. *)
Definition placeOf (address : gmap string (Value float64)) : gmap string string :=
  <["country" := getString address "country"]>
  (<["state" := getString address "state"]>
  (<["state_district" := getString address "state_district"]>
  (<["county" := getString address "county"]> ∅))).

(** The ways the client fails, each with the error it returns. The
    transport fails when the request fails or when the body cannot be
    read. *)
Inductive FailsWith (lat lon : float64) (w : World) : error → Prop :=
| RequestFails (e : error) (w1 : World) :
    http_Get (geocodeURL lat lon) w = (Err e, w1) →
    FailsWith lat lon w e
| StatusNotOK (resp : Response ReadCloser) (w1 : World) :
    http_Get (geocodeURL lat lon) w = (Ok resp, w1) →
    StatusCode resp ≠ 200%Z →
    FailsWith lat lon w
      (NewError ("API error: " ++ fmt.FormatInt (StatusCode resp)))
| BodyReadFails (resp : Response ReadCloser) (w1 : World) (e : error) (w2 : World) :
    http_Get (geocodeURL lat lon) w = (Ok resp, w1) →
    StatusCode resp = 200%Z →
    io_ReadAll (Body resp) w1 = (Err e, w2) →
    FailsWith lat lon w e
| BodyNotJSON (resp : Response ReadCloser) (w1 : World) (body : string)
    (w2 : World) (e : error) :
    http_Get (geocodeURL lat lon) w = (Ok resp, w1) →
    StatusCode resp = 200%Z →
    io_ReadAll (Body resp) w1 = (Ok body, w2) →
    json_Unmarshal body = Err e →
    FailsWith lat lon w e
| AddressInvalid (resp : Response ReadCloser) (w1 : World) (body : string)
    (w2 : World) (data : gmap string (Value float64)) :
    http_Get (geocodeURL lat lon) w = (Ok resp, w1) →
    StatusCode resp = 200%Z →
    io_ReadAll (Body resp) w1 = (Ok body, w2) →
    json_Unmarshal body = Ok data →
    (∀ address, data !! "address" ≠ Some (JObject address)) →
    FailsWith lat lon w (NewError "invalid address data").

(** The address object the service answers with. *)
Inductive AnswersWith (lat lon : float64) (w : World)
  : gmap string (Value float64) → Prop :=
| AddressFound (resp : Response ReadCloser) (w1 : World) (body : string)
    (w2 : World) (data address : gmap string (Value float64)) :
    http_Get (geocodeURL lat lon) w = (Ok resp, w1) →
    StatusCode resp = 200%Z →
    io_ReadAll (Body resp) w1 = (Ok body, w2) →
    json_Unmarshal body = Ok data →
    data !! "address" = Some (JObject address) →
    AnswersWith lat lon w address.

Definition isGet (ev : Event) : bool :=
  match ev with EvGet _ => true | _ => false end.

(** No byte of the text is the separator. *)
Fixpoint noSep (s : string) : bool :=
  match s with
  | "" => true
  | String c s' => negb (IsPathSeparator c) && noSep s'
  end.

(** A proper path element: not empty, without separator, and neither
    [.] nor [..]. *)
Definition isName (e : string) : bool :=
  negb (String.eqb e "") && negb (String.eqb e ".")
  && negb (String.eqb e "..") && noSep e.

(** The buffer after a real path element has been written to it. *)
Definition withElement (rooted : bool) (out e : string) : string :=
  (if needSep rooted out then append out Separator else out) ++ e.

Definition nonEmpty (e : string) : bool := negb (String.eqb e "").

(** The elements that are left when the empty ones are dropped. *)
Definition names (elems : list string) : list string := List.filter nonEmpty elems.

Definition isNameOrEmpty (e : string) : bool := String.eqb e "" || isName e.

(** The text does not begin with a separator. *)
Definition noLeadSep (out : string) : bool :=
  match out with
  | "" => true
  | String c _ => negb (IsPathSeparator c)
  end.

(** The path split at its separators ([strings.Split(path, "/")]). *)
Fixpoint pathElements (path : string) : list string :=
  match path with
  | "" => [""]
  | String c rest =>
      if IsPathSeparator c then "" :: pathElements rest
      else match pathElements rest with
           | e :: es => String c e :: es
           | [] => [String c ""]
           end
  end.

(** The directory levels of [path] below [root], when [root] is its
    first element. *)
Definition levelsBelow (root path : string) : option (list string) :=
  match pathElements path with
  | first :: levels => if String.eqb first root then Some levels else None
  | [] => None
  end.

(** The Place of the claim C9, with [Unknown] for the state district. *)
Definition alameda : gmap string string :=
  {[ "country" := "US"; "state" := "California";
     "state_district" := "Unknown"; "county" := "Alameda County" ]}.

(** The calls that create a directory or rename a file. *)
Definition isMove (ev : Event) : bool :=
  match ev with
  | EvMkdirAll _ _ | EvRename _ _ => true
  | _ => false
  end.

Definition isOpen (ev : Event) : bool :=
  match ev with EvOpen _ => true | _ => false end.

(** The other kinds of calls, and how often a kind occurs in a record. *)
Definition isStdout (ev : Event) : bool :=
  match ev with EvStdout _ => true | _ => false end.

Definition isDecode (ev : Event) : bool :=
  match ev with EvDecode => true | _ => false end.

Definition isClose (ev : Event) : bool :=
  match ev with EvClose => true | _ => false end.

Definition isReadAll (ev : Event) : bool :=
  match ev with EvReadAll => true | _ => false end.

Definition isBodyClose (ev : Event) : bool :=
  match ev with EvBodyClose => true | _ => false end.

Definition isMkdirAll (ev : Event) : bool :=
  match ev with EvMkdirAll _ _ => true | _ => false end.

Definition isRename (ev : Event) : bool :=
  match ev with EvRename _ _ => true | _ => false end.

Definition isReadDir (ev : Event) : bool :=
  match ev with EvReadDir _ => true | _ => false end.

Definition isFatal (ev : Event) : bool :=
  match ev with EvFatal _ => true | _ => false end.

Definition countOf (kind : Event → bool) (evs : list Event) : nat :=
  List.length (List.filter kind evs).

(** The text begins with a separator. *)
Definition leadSep (out : string) : bool :=
  match out with
  | "" => false
  | String c _ => IsPathSeparator c
  end.

(** Every byte of the text passes the test. *)
Fixpoint allBytes (test : ascii → bool) (s : string) : bool :=
  match s with
  | "" => true
  | String c s' => test c && allBytes test s'
  end.

Definition notSpace (c : ascii) : bool := negb (Ascii.eqb c " "%char).

End Vocabulary.

(** * Verification *)

(** ** Strings: append, length, get *)

(** stdpp keeps [simpl] from unfolding [++] on strings; these two
    equations are its steps. *)
Lemma append_nil_l (t : string) : "" ++ t = t.
Proof. reflexivity. Qed.

Lemma append_cons (c : ascii) (s t : string) :
  String c s ++ t = String c (s ++ t).
Proof. reflexivity. Qed.

Lemma append_nil_r (s : string) : s ++ "" = s.
Proof.
  induction s as [|c s IH]; [reflexivity | now rewrite append_cons, IH].
Qed.

Lemma append_assoc (s t u : string) : (s ++ t) ++ u = s ++ t ++ u.
Proof.
  induction s as [|c s IH]; [reflexivity | now rewrite !append_cons, IH].
Qed.

Lemma length_append (s t : string) :
  String.length (s ++ t) = String.length s + String.length t.
Proof.
  induction s as [|c s IH]; [reflexivity|].
  rewrite append_cons; simpl; now rewrite IH.
Qed.

Lemma get_append_r (s t : string) (i : nat) :
  String.get (String.length s + i) (s ++ t) = String.get i t.
Proof. induction s as [|c s IH]; [reflexivity | exact IH]. Qed.

Lemma substring_all (s : string) : String.substring 0 (String.length s) s = s.
Proof. induction s as [|c s IH]; simpl; [reflexivity | now rewrite IH]. Qed.

Lemma substring_append_r (s t : string) :
  String.substring (String.length s) (String.length t) (s ++ t) = t.
Proof. induction s as [|c s IH]; [apply substring_all | exact IH]. Qed.

(** Two texts of the same length that end the same text are equal. *)
Lemma append_inv_same_length (p1 p2 s1 s2 : string) :
  p1 ++ s1 = p2 ++ s2 → String.length s1 = String.length s2 →
  p1 = p2 ∧ s1 = s2.
Proof.
  revert p2; induction p1 as [|c p1 IH]; intros [|d p2] H Hlen;
    rewrite ?append_cons, ?append_nil_l in H.
  - now split.
  - apply (f_equal String.length) in H; simpl in H.
    rewrite length_append in H; lia.
  - apply (f_equal String.length) in H; simpl in H.
    rewrite length_append in H; lia.
  - injection H as -> H. destruct (IH _ H Hlen) as [-> ->]. now split.
Qed.

(** ** The library models on the tables of Go's tests

    The cases of [cleantests], [basetests] and [jointests] of
    path/filepath (Unix), and [ReplaceAll] and [HasSuffix] on small
    inputs. *)

Example Clean_table :
  List.map filepath.Clean
    [ "abc"; "abc/def"; "a/b/c"; "."; ".."; "../.."; "../../abc"; "/abc"; "/";
      ""; "abc/"; "abc/def/"; "a/b/c/"; "./"; "../"; "../../"; "/abc/";
      "abc//def//ghi"; "abc//"; "abc/./def"; "/./abc/def"; "abc/.";
      "abc/def/ghi/../jkl"; "abc/def/../ghi/../jkl"; "abc/def/.."; "abc/def/../..";
      "/abc/def/../.."; "abc/def/../../.."; "/abc/def/../../..";
      "abc/def/../../../ghi/jkl/../../../mno"; "/../abc"; "a/../b:/../../c";
      "abc/./../def"; "abc//./../def"; "abc/../../././../def" ]
  = [ "abc"; "abc/def"; "a/b/c"; "."; ".."; "../.."; "../../abc"; "/abc"; "/";
      "."; "abc"; "abc/def"; "a/b/c"; "."; ".."; "../.."; "/abc";
      "abc/def/ghi"; "abc"; "abc/def"; "/abc/def"; "abc";
      "abc/def/jkl"; "abc/jkl"; "abc"; ".";
      "/"; ".."; "/";
      "../../mno"; "/abc"; "../c";
      "def"; "def"; "../../def" ].
Proof. reflexivity. Qed.

Example Base_table :
  List.map filepath.Base
    [ ""; "."; "/."; "/"; "////"; "x/"; "abc"; "abc/def"; "a/b/.x"; "a/b/c.";
      "a/b/c.x" ]
  = [ "."; "."; "."; "/"; "/"; "x"; "abc"; "def"; ".x"; "c."; "c.x" ].
Proof. reflexivity. Qed.

Example Join_table :
  List.map filepath.Join
    [ []; [""]; ["/"]; ["a"]; ["a"; "b"]; ["a"; ""]; [""; "b"]; ["/"; "a"];
      ["/"; "a/b"]; ["/"; ""]; ["/a"; "b"]; ["a"; "/b"]; ["/a"; "/b"];
      ["a/"; "b"]; ["a/"; ""]; [""; ""]; ["//"; "a"] ]
  = [ ""; ""; "/"; "a"; "a/b"; "a"; "b"; "/a";
      "/a/b"; "/"; "/a/b"; "a/b"; "/a/b";
      "a/b"; "a"; ""; "/a" ].
Proof. reflexivity. Qed.

Example ReplaceAll_table :
  List.map (λ '(s, old, new), strings.ReplaceAll s old new)
    [ ("hello", "l", "L"); ("hello", "x", "X"); ("banana", "ana", "<>");
      ("San Francisco County", " ", "_"); ("a  b", " ", "_"); ("", " ", "_") ]
  = [ "heLLo"; "hello"; "b<>na"; "San_Francisco_County"; "a__b"; "" ].
Proof. reflexivity. Qed.

Example HasSuffix_table :
  List.map (λ '(s, suffix), strings.HasSuffix s suffix)
    [ ("trip.jpg", ".jpg"); ("trip.jpeg", ".jpeg"); ("trip.JPG", ".jpg");
      ("jpg", ".jpg"); (".png", ".png"); ("a.png.txt", ".png"); ("abc", "") ]
  = [ true; true; false; false; true; false; true ].
Proof. reflexivity. Qed.

Example FormatValue_table :
  List.map (fmt.FormatValue Mock.format_v)
    [ JNull; JBool true; JNumber Mock.F37_7749; JString "San Francisco";
      JString ""; JArray [JString "a"; JNull; JNumber Mock.F0]; JArray [];
      JObject {[ "b" := JString "x"; "a" := JBool false ]}; JObject ∅ ]
  = [ "<nil>"; "true"; "37.7749"; "San Francisco";
      ""; "[a <nil> 0]"; "[]";
      "map[a:false b:x]"; "map[]" ].
Proof. reflexivity. Qed.

(** ** The sanitizer *)

Section Sanitize.

Lemma sanitize_nil : sanitize "" = "".
Proof. reflexivity. Qed.

Lemma prefix_space (c : ascii) (s : string) :
  String.prefix " " (String c s) = Ascii.eqb c space.
Proof.
  change (String.prefix " " (String c s))
    with (if ascii_dec " " c then String.prefix "" s else false).
  destruct (ascii_dec " " c) as [<-|Hne].
  - now destruct s.
  - symmetry; apply Ascii.eqb_neq; intros ->; now apply Hne.
Qed.

Lemma sanitize_cons (c : ascii) (s : string) :
  sanitize (String c s) = String (sanitizeByte c) (sanitize s).
Proof.
  unfold sanitize, strings.ReplaceAll.
  change (String.eqb " " "_") with false; cbv iota.
  change (strings.replaceFrom " " "_" 0 (String c s))
    with (if String.prefix " " (String c s)
          then "_" ++ strings.replaceFrom " " "_" 0 s
          else String c (strings.replaceFrom " " "_" 0 s)).
  rewrite prefix_space. unfold sanitizeByte.
  now destruct (Ascii.eqb c space).
Qed.

Lemma sanitizeByte_not_space (c : ascii) : sanitizeByte c ≠ space.
Proof.
  unfold sanitizeByte. destruct (Ascii.eqb_spec c space) as [->|Hne];
    [discriminate | exact Hne].
Qed.

Lemma sanitizeByte_fixed (c : ascii) : c ≠ space → sanitizeByte c = c.
Proof.
  unfold sanitizeByte. now destruct (Ascii.eqb_spec c space).
Qed.

Lemma sanitize_length (s : string) :
  String.length (sanitize s) = String.length s.
Proof.
  induction s as [|c s IH]; [reflexivity|].
  rewrite sanitize_cons; simpl; now rewrite IH.
Qed.

Lemma sanitize_get (s : string) (i : nat) :
  String.get i (sanitize s) = sanitizeByte <$> String.get i s.
Proof.
  revert i; induction s as [|c s IH]; intros i.
  - now destruct i.
  - rewrite sanitize_cons. destruct i as [|i]; simpl; [reflexivity | apply IH].
Qed.

Lemma sanitize_idempotent (s : string) : sanitize (sanitize s) = sanitize s.
Proof.
  induction s as [|c s IH]; [reflexivity|].
  rewrite !sanitize_cons, IH.
  now rewrite (sanitizeByte_fixed _ (sanitizeByte_not_space c)).
Qed.

End Sanitize.

(** C3. [sanitize] is a total function on strings. For every string [s]:
    no byte of [sanitize s] is the ASCII space; [sanitize (sanitize s)] is
    [sanitize s]; the length is kept and every byte of [s] other than the
    space (punctuation, non-ASCII bytes, path separators and control
    characters alike) is found unchanged at its position. *)
Theorem sanitize_total_no_space_idempotent_pointwise (s : string) :
  (∀ i : nat, String.get i (sanitize s) ≠ Some " "%char)
  ∧ sanitize (sanitize s) = sanitize s
  ∧ String.length (sanitize s) = String.length s
  ∧ (∀ (i : nat) (c : ascii),
        String.get i s = Some c → c ≠ " "%char →
        String.get i (sanitize s) = Some c).
Proof.
  repeat split.
  - intros i. rewrite sanitize_get.
    destruct (String.get i s) as [c|]; simpl; [|discriminate].
    intros [= H]. exact (sanitizeByte_not_space c H).
  - apply sanitize_idempotent.
  - apply sanitize_length.
  - intros i c Hget Hc. rewrite sanitize_get, Hget; simpl.
    now rewrite sanitizeByte_fixed.
Qed.

(** The theorem at a name with spaces, a separator, punctuation and a
    byte above 127. *)
Lemma sanitize_total_witness :
  String.get 4 ("Val d/" ++ String (ascii_of_nat 195) "Or, x") = Some "d"%char
  ∧ String.get 4 (sanitize ("Val d/" ++ String (ascii_of_nat 195) "Or, x"))
    = Some "d"%char.
Proof.
  split; [reflexivity|].
  apply (proj2 (proj2 (proj2 (sanitize_total_no_space_idempotent_pointwise
           ("Val d/" ++ String (ascii_of_nat 195) "Or, x"))))).
  - reflexivity.
  - discriminate.
Defined.

(** ** The filter of the driver *)

Lemma substring_split (s : string) (k : nat) :
  k <= String.length s →
  s = String.substring 0 k s ++ String.substring k (String.length s - k) s.
Proof.
  revert k; induction s as [|c s IH]; intros [|k] Hk; simpl in *; try lia.
  - reflexivity.
  - now rewrite append_nil_l, substring_all.
  - rewrite append_cons. f_equal. apply IH; lia.
Qed.

(** [HasSuffix] holds exactly of the texts that end in the suffix. *)
Lemma HasSuffix_iff (s suffix : string) :
  strings.HasSuffix s suffix = true ↔ ∃ stem, s = stem ++ suffix.
Proof.
  unfold strings.HasSuffix. rewrite andb_true_iff, Nat.leb_le, String.eqb_eq.
  split.
  - intros [Hlen Hsub].
    exists (String.substring 0 (String.length s - String.length suffix) s).
    rewrite <- Hsub at 2.
    rewrite (substring_split s (String.length s - String.length suffix)) at 1
      by lia.
    do 2 f_equal. lia.
  - intros [stem ->]. rewrite length_append. split; [lia|].
    replace (String.length stem + String.length suffix - String.length suffix)
      with (String.length stem) by lia.
    apply substring_append_r.
Qed.

Lemma isImage_iff (file : DirEntry) :
  isImage file = true ↔
  IsDir file = false
  ∧ ∃ stem ext, ext ∈ imageExtensions ∧ Name file = stem ++ ext.
Proof.
  unfold isImage, imageExtensions.
  rewrite andb_true_iff, !orb_true_iff, negb_true_iff, !HasSuffix_iff.
  split.
  - intros [Hdir [[[stem H]|[stem H]]|[stem H]]]; (split; [exact Hdir|]).
    + exists stem, ".jpg". split; [set_solver | exact H].
    + exists stem, ".jpeg". split; [set_solver | exact H].
    + exists stem, ".png". split; [set_solver | exact H].
  - intros [Hdir (stem & ext & Hext & H)]. split; [exact Hdir|].
    rewrite !elem_of_cons in Hext.
    destruct Hext as [->|[->|[->|Hext]]]; [eauto .. | inversion Hext].
Qed.

Lemma toLower_length (s : string) : String.length (toLower s) = String.length s.
Proof. induction s as [|c s IH]; simpl; [reflexivity | now rewrite IH]. Qed.

Lemma toLower_imageExtension (ext : string) :
  ext ∈ imageExtensions → toLower ext = ext.
Proof.
  unfold imageExtensions; rewrite !elem_of_cons.
  intros [->|[->|[->|H]]]; [reflexivity .. | inversion H].
Qed.

(** A name that ends in a variant of an extension written with other
    letter case does not end in any of the three extensions. *)
Lemma case_variant_not_image (stem ext variant : string) (dir : bool) :
  ext ∈ imageExtensions → toLower variant = ext → variant ≠ ext →
  isImage {| Name := stem ++ variant; IsDir := dir |} = false.
Proof.
  intros Hext Hlow Hne. apply not_true_is_false. rewrite isImage_iff; simpl.
  intros [_ (stem2 & ext2 & Hext2 & Heq)].
  assert (Hlen : String.length variant = String.length ext)
    by (rewrite <- Hlow; symmetry; apply toLower_length).
  destruct (Nat.eq_dec (String.length variant) (String.length ext2)) as [Hl|Hl].
  - (* same length: the variant is the extension itself *)
    destruct (append_inv_same_length _ _ _ _ Heq Hl) as [_ ->].
    rewrite (toLower_imageExtension _ Hext2) in Hlow. contradiction.
  - unfold imageExtensions in Hext, Hext2. rewrite !elem_of_cons in Hext, Hext2.
    destruct Hext2 as [->|[->|[->|Hext2]]]; [| | |inversion Hext2];
      destruct Hext as [->|[->|[->|Hext]]];
      try (inversion Hext; fail); simpl in Hlen, Hl; try lia.
    + (* a five-byte variant against ".jpg" *)
      destruct variant as [|c variant]; [discriminate|].
      change (stem ++ String c variant) with (stem ++ String c "" ++ variant) in Heq.
      rewrite <- append_assoc in Heq.
      destruct (append_inv_same_length _ _ _ _ Heq) as [_ ->];
        [simpl in *; lia | discriminate].
    + (* a four-byte variant against ".jpeg" *)
      change ".jpeg" with ("." ++ "jpeg") in Heq. rewrite <- append_assoc in Heq.
      destruct (append_inv_same_length _ _ _ _ Heq) as [_ ->];
        [simpl in *; lia | discriminate].
    + change ".jpeg" with ("." ++ "jpeg") in Heq. rewrite <- append_assoc in Heq.
      destruct (append_inv_same_length _ _ _ _ Heq) as [_ ->];
        [simpl in *; lia | discriminate].
    + destruct variant as [|c variant]; [discriminate|].
      change (stem ++ String c variant) with (stem ++ String c "" ++ variant) in Heq.
      rewrite <- append_assoc in Heq.
      destruct (append_inv_same_length _ _ _ _ Heq) as [_ ->];
        [simpl in *; lia | discriminate].
Qed.

(** ** The reverse-geocoding client *)

Section Geocoding.

Context {sys : Sys}.

Lemma placeOf_lookup (address : gmap string (Value float64)) (key : string) :
  key ∈ placeKeys → placeOf address !! key = Some (getString address key).
Proof.
  unfold placeKeys, placeOf; rewrite !elem_of_cons.
  intros [->|[->|[->|[->|H]]]]; [by simplify_map_eq .. | inversion H].
Qed.

Lemma placeOf_dom (address : gmap string (Value float64)) :
  dom (placeOf address) = list_to_set placeKeys.
Proof.
  unfold placeOf, placeKeys. rewrite !dom_insert_L, dom_empty_L. simpl.
  set_solver.
Qed.

(** The client either fails in one of the five ways or returns the
    Place of the address object; either way it sends one request. *)
Lemma getLocationDetails_cases (lat lon : float64) (w : World) :
  ((∃ e, (getLocationDetails lat lon w).1.1 = Err e ∧ FailsWith lat lon w e)
   ∨ (∃ address, (getLocationDetails lat lon w).1.1 = Ok (placeOf address)
                 ∧ AnswersWith lat lon w address))
  ∧ List.filter isGet (getLocationDetails lat lon w).2
    = [EvGet (geocodeURL lat lon)].
Proof.
  unfold getLocationDetails; run_monad.
  destruct (http_Get (geocodeURL lat lon) w) as [[resp|e] w1] eqn:Hget; run_monad.
  2: { split; [left; exists e; split; [reflexivity|]|reflexivity].
       eapply RequestFails; eassumption. }
  destruct (StatusCode resp =? StatusOK)%Z eqn:Hcode; run_monad.
  2: { apply Z.eqb_neq in Hcode.
       split; [left; eexists; split; [reflexivity|]|reflexivity].
       eapply StatusNotOK; eassumption. }
  apply Z.eqb_eq in Hcode.
  destruct (io_ReadAll (Body resp) w1) as [[body|e] w2] eqn:Hread; run_monad.
  2: { split; [left; exists e; split; [reflexivity|]|reflexivity].
       eapply BodyReadFails; eassumption. }
  destruct (json_Unmarshal body) as [data|e] eqn:Hjson; run_monad.
  2: { split; [left; exists e; split; [reflexivity|]|reflexivity].
       eapply BodyNotJSON; eassumption. }
  destruct (data !! "address") as [v|] eqn:Haddr; run_monad.
  2: { split; [left; eexists; split; [reflexivity|]|reflexivity].
       eapply AddressInvalid; try eassumption. intros a; rewrite Haddr; discriminate. }
  destruct v as [| | | | |address]; run_monad;
    try (split; [left; eexists; split; [reflexivity|]|reflexivity];
         eapply AddressInvalid; try eassumption;
         intros a; rewrite Haddr; discriminate).
  split; [right; exists address; split; [reflexivity|]|reflexivity].
  eapply AddressFound; eassumption.
Qed.

(** The two outcomes exclude each other and each fixes its value. *)
Lemma FailsWith_AnswersWith (lat lon : float64) (w : World) (e : error)
  (address : gmap string (Value float64)) :
  FailsWith lat lon w e → AnswersWith lat lon w address → False.
Proof.
  intros Hf Ha. destruct Ha as [resp w1 body w2 data address Hget Hcode Hread Hjson Haddr].
  destruct Hf as [e' w1' Hget'|resp' w1' Hget' Hcode'|resp' w1' e' w2' Hget' Hcode' Hread'
                 |resp' w1' body' w2' e' Hget' Hcode' Hread' Hjson'
                 |resp' w1' body' w2' data' Hget' Hcode' Hread' Hjson' Haddr'];
    rewrite Hget in Hget'; try discriminate;
    injection Hget' as <- <-; try contradiction;
    rewrite Hread in Hread'; try discriminate;
    injection Hread' as <- <-;
    rewrite Hjson in Hjson'; try discriminate;
    injection Hjson' as <-.
  exact (Haddr' _ Haddr).
Qed.

Lemma getLocationDetails_Err_iff (lat lon : float64) (w : World) (e : error) :
  (getLocationDetails lat lon w).1.1 = Err e ↔ FailsWith lat lon w e.
Proof.
  destruct (getLocationDetails_cases lat lon w) as [[(e' & Hr & Hf)|(a & Hr & Ha)] _].
  - rewrite Hr. split; [now intros [= <-]|].
    intros Hf'. f_equal.
    revert Hf'.
    destruct Hf as [e1 w1 Hget|resp w1 Hget Hcode|resp w1 e1 w2 Hget Hcode Hread
                   |resp w1 body w2 e1 Hget Hcode Hread Hjson
                   |resp w1 body w2 data Hget Hcode Hread Hjson Haddr];
    intros [e2 w1' Hget'|resp' w1' Hget' Hcode'|resp' w1' e2 w2' Hget' Hcode' Hread'
           |resp' w1' body' w2' e2 Hget' Hcode' Hread' Hjson'
           |resp' w1' body' w2' data' Hget' Hcode' Hread' Hjson' Haddr'];
    rewrite Hget in Hget'; try discriminate;
    injection Hget' as <- <-; try reflexivity; try contradiction;
    rewrite Hread in Hread'; try discriminate;
    injection Hread' as <- <-; try reflexivity;
    rewrite Hjson in Hjson'; try discriminate;
    try (injection Hjson' as <-); reflexivity.
  - rewrite Hr. split; [discriminate|].
    intros Hf. destruct (FailsWith_AnswersWith _ _ _ _ _ Hf Ha).
Qed.

(** [%v] prints nothing only for the empty string, as long as it prints
    something for every number. *)
Lemma FormatValue_empty_iff (v : Value float64) :
  (∀ f : float64, formatFloat_v f ≠ "") →
  fmt.FormatValue formatFloat_v v = "" ↔ v = JString "".
Proof.
  intros Hfmt. destruct v as [|b|f|s|elems|members]; simpl.
  - split; discriminate.
  - destruct b; split; discriminate.
  - split; [intros H; now apply Hfmt in H | discriminate].
  - split; [now intros -> | now intros [= ->]].
  - split; discriminate.
  - split; discriminate.
Qed.

Lemma getString_empty_iff (address : gmap string (Value float64)) (key : string) :
  (∀ f : float64, formatFloat_v f ≠ "") →
  getString address key = "" ↔ address !! key = Some (JString "").
Proof.
  intros Hfmt. unfold getString. destruct (address !! key) as [v|].
  - rewrite (FormatValue_empty_iff v Hfmt). split; [now intros -> | now intros [= ->]].
  - split; discriminate.
Qed.

End Geocoding.

(** C2. When the body decodes to an object whose [address] member is an
    object, the client succeeds, and for each of the four keys the field
    of the Place is the value printed with [%v] when the key is present
    and the literal [Unknown] when it is absent; when all four keys are
    absent, all four fields are [Unknown], and this is a success. *)
Theorem geocoding_succeeds_on_address_object {sys : Sys}
  (lat lon : float64) (w w1 w2 : World) (resp : Response ReadCloser)
  (body : string) (data address : gmap string (Value float64)) :
  http_Get (geocodeURL lat lon) w = (Ok resp, w1) →
  StatusCode resp = 200%Z →
  io_ReadAll (Body resp) w1 = (Ok body, w2) →
  json_Unmarshal body = Ok data →
  data !! "address" = Some (JObject address) →
  ∃ location : gmap string string,
    (getLocationDetails lat lon w).1.1 = Ok location
    ∧ (∀ key, key ∈ ["country"; "state"; "state_district"; "county"] →
         location !! key
         = Some match address !! key with
                | Some value => fmt.FormatValue formatFloat_v value
                | None => "Unknown"
                end)
    ∧ ((∀ key, key ∈ ["country"; "state"; "state_district"; "county"] →
          address !! key = None) →
       ∀ key, key ∈ ["country"; "state"; "state_district"; "county"] →
         location !! key = Some "Unknown").
Proof.
  intros Hget Hcode Hread Hjson Haddr.
  assert (Ha : AnswersWith lat lon w address)
    by (eapply AddressFound; eassumption).
  destruct (getLocationDetails_cases lat lon w)
    as [[(e & Hr & Hf)|(address' & Hr & Ha')] _].
  - destruct (FailsWith_AnswersWith _ _ _ _ _ Hf Ha).
  - assert (address' = address) as ->.
    { destruct Ha' as [resp' w1' body' w2' data' address' Hget' Hcode' Hread' Hjson' Haddr'].
      rewrite Hget in Hget'; injection Hget' as <- <-.
      rewrite Hread in Hread'; injection Hread' as <- <-.
      rewrite Hjson in Hjson'; injection Hjson' as <-.
      rewrite Haddr in Haddr'. now injection Haddr'. }
    exists (placeOf address). split; [exact Hr|]. split.
    + intros key Hkey. now rewrite (placeOf_lookup address key Hkey).
    + intros Hnone key Hkey. rewrite (placeOf_lookup address key Hkey).
      unfold getString. now rewrite (Hnone key Hkey).
Qed.

(** The theorem at the request for San Francisco in the test double: the
    address has no [state_district]. *)
Lemma geocoding_succeeds_witness :
  ∃ location : gmap string string,
    (@getLocationDetails Mock.sys Mock.F37_7749 Mock.Fm122_4194 Mock.fixture).1.1
    = Ok location
    ∧ location !! "country" = Some "United States"
    ∧ location !! "state_district" = Some "Unknown".
Proof.
  destruct (@geocoding_succeeds_on_address_object Mock.sys
              Mock.F37_7749 Mock.Fm122_4194 Mock.fixture Mock.fixture Mock.fixture
              {| StatusCode := 200; Body := Mock.bodySanFrancisco |}
              Mock.bodySanFrancisco
              {[ "address" :=
                   JObject {[ "country" := JString "United States";
                              "state" := JString "California";
                              "county" := JString "San Francisco County" ]} ]}
              {[ "country" := JString "United States";
                 "state" := JString "California";
                 "county" := JString "San Francisco County" ]}
              eq_refl eq_refl eq_refl eq_refl eq_refl)
    as (location & Hr & Hkeys & _).
  exists location. split; [exact Hr|]. split.
  - rewrite (Hkeys "country") by set_solver. reflexivity.
  - rewrite (Hkeys "state_district") by set_solver. reflexivity.
Defined.

(** C6. The client fails, returning an error and no Place, exactly in
    these cases: the transport fails (the request itself, or the reading
    of the body); the status is not 200, and then the message is
    [API error: ] followed by the status in decimal; the body is not
    decodable; the decoded object has no object at [address], and then
    the message is [invalid address data]. In every case one request is
    sent: there is no retry. *)
Theorem geocoding_fails_exactly_when {sys : Sys} (lat lon : float64) (w : World) :
  (∀ e : error,
     (getLocationDetails lat lon w).1.1 = Err e ↔ FailsWith lat lon w e)
  ∧ (isErr (getLocationDetails lat lon w).1.1 = true ↔
     ∃ e : error, FailsWith lat lon w e)
  ∧ (∀ (resp : Response ReadCloser) (w1 : World),
       http_Get (geocodeURL lat lon) w = (Ok resp, w1) →
       StatusCode resp ≠ 200%Z →
       (getLocationDetails lat lon w).1.1
       = Err (NewError ("API error: " ++ fmt.FormatInt (StatusCode resp))))
  ∧ (∀ (resp : Response ReadCloser) (w1 w2 : World) (body : string)
       (data : gmap string (Value float64)),
       http_Get (geocodeURL lat lon) w = (Ok resp, w1) →
       StatusCode resp = 200%Z →
       io_ReadAll (Body resp) w1 = (Ok body, w2) →
       json_Unmarshal body = Ok data →
       (∀ address, data !! "address" ≠ Some (JObject address)) →
       (getLocationDetails lat lon w).1.1 = Err (NewError "invalid address data"))
  ∧ List.filter isGet (getLocationDetails lat lon w).2
    = [EvGet (geocodeURL lat lon)].
Proof.
  split; [intros e; apply getLocationDetails_Err_iff|].
  split; [|split; [|split]].
  - split.
    + destruct ((getLocationDetails lat lon w).1.1) as [v|e] eqn:Hr; [discriminate|].
      intros _. exists e. now apply getLocationDetails_Err_iff.
    + intros [e He]. apply getLocationDetails_Err_iff in He. now rewrite He.
  - intros resp w1 Hget Hcode. apply getLocationDetails_Err_iff.
    eapply StatusNotOK; eassumption.
  - intros resp w1 w2 body data Hget Hcode Hread Hjson Haddr.
    apply getLocationDetails_Err_iff. eapply AddressInvalid; eassumption.
  - apply getLocationDetails_cases.
Qed.

(** The theorem at the two failing requests of the test double: a status
    503 and a body without [address]. *)
Lemma geocoding_fails_witness :
  (@getLocationDetails Mock.sys Mock.F51_5 Mock.Fm0_12 Mock.fixture).1.1
  = Err (NewError "API error: 503")
  ∧ (@getLocationDetails Mock.sys Mock.F2_35 Mock.F48_85 Mock.fixture).1.1
    = Err (NewError "invalid address data").
Proof.
  split.
  - apply (proj1 (proj2 (proj2
             (@geocoding_fails_exactly_when Mock.sys Mock.F51_5 Mock.Fm0_12 Mock.fixture)))
             {| StatusCode := 503; Body := "Service Unavailable" |} Mock.fixture).
    + reflexivity.
    + discriminate.
  - apply (proj1 (proj2 (proj2 (proj2
             (@geocoding_fails_exactly_when Mock.sys Mock.F2_35 Mock.F48_85 Mock.fixture))))
             {| StatusCode := 200; Body := Mock.bodyNoAddress |}
             Mock.fixture Mock.fixture Mock.bodyNoAddress
             {[ "error" := JString "Unable to geocode" ]}).
    + reflexivity.
    + reflexivity.
    + reflexivity.
    + reflexivity.
    + intros address. vm_compute. discriminate.
Defined.

(** The claim C7 as written fails: the service may answer with an empty
    string for a key, and the client then succeeds with an empty field. *)
Lemma place_field_may_be_empty :
  ∃ location : gmap string string,
    (@getLocationDetails Mock.sys Mock.F48_85 Mock.F2_35 Mock.fixture).1.1
    = Ok location
    ∧ location !! "country" = Some "".
Proof.
  exists (@placeOf Mock.sys {[ "country" := JString ""; "state" := JNull ]}).
  split; reflexivity.
Qed.

(** C7, amended. Every Place the client returns has exactly the four keys
    [country], [state], [state_district] and [county]; the value of each
    is a string, which is empty only when the service answered with the
    empty string for that key ([formatFloat_v], Go's [%v] on a [float64],
    never prints the empty text). *)
Theorem place_has_exactly_four_keys {sys : Sys}
  (lat lon : float64) (w : World) (location : gmap string string) :
  (∀ f : float64, formatFloat_v f ≠ "") →
  (getLocationDetails lat lon w).1.1 = Ok location →
  dom location = {[ "country"; "state"; "state_district"; "county" ]}
  ∧ ∃ address : gmap string (Value float64),
      AnswersWith lat lon w address
      ∧ ∀ key, key ∈ ["country"; "state"; "state_district"; "county"] →
          ∃ text : string,
            location !! key = Some text
            ∧ (text = "" ↔ address !! key = Some (JString "")).
Proof.
  intros Hfmt Hok.
  destruct (getLocationDetails_cases lat lon w)
    as [[(e & Hr & _)|(address & Hr & Ha)] _]; rewrite Hr in Hok;
    [discriminate|].
  injection Hok as <-. split.
  - rewrite placeOf_dom. unfold placeKeys. simpl. set_solver.
  - exists address. split; [exact Ha|]. intros key Hkey.
    exists (getString address key). split.
    + now apply placeOf_lookup.
    + now apply getString_empty_iff.
Qed.

(** The theorem at the request for San Francisco in the test double. *)
Lemma place_has_exactly_four_keys_witness :
  dom (@placeOf Mock.sys
         {[ "country" := JString "United States";
            "state" := JString "California";
            "county" := JString "San Francisco County" ]})
  = {[ "country"; "state"; "state_district"; "county" ]}.
Proof.
  refine (proj1 (@place_has_exactly_four_keys Mock.sys
                   Mock.F37_7749 Mock.Fm122_4194 Mock.fixture _ _ _)).
  - intros f; destruct f; discriminate.
  - reflexivity.
Defined.

(** The claim C8 as written fails: for a JSON [null] the client does not
    return [Unknown] but what [%v] prints for [nil]. *)
Lemma null_is_not_Unknown :
  @getString Mock.sys {[ "state" := JNull ]} "state" = "<nil>"
  ∧ @getString Mock.sys {[ "state" := JNull ]} "state" ≠ "Unknown"
  ∧ ∃ location : gmap string string,
      (@getLocationDetails Mock.sys Mock.F48_85 Mock.F2_35 Mock.fixture).1.1
      = Ok location
      ∧ location !! "state" = Some "<nil>".
Proof.
  split; [reflexivity|]. split; [discriminate|].
  exists (@placeOf Mock.sys {[ "country" := JString ""; "state" := JNull ]}).
  split; reflexivity.
Qed.

(** C8, amended. [getString] returns the literal [Unknown] when the key
    is missing from the address object; when the service returns a JSON
    [null] for the key, it returns [<nil>], the text [%v] prints for
    [nil]. *)
Theorem unknown_when_missing_nil_when_null {sys : Sys}
  (address : gmap string (Value float64)) (key : string) :
  (address !! key = None → getString address key = "Unknown")
  ∧ (address !! key = Some JNull → getString address key = "<nil>").
Proof.
  unfold getString. split; intros ->; reflexivity.
Qed.

(** The theorem at an address with a [null] state and no county. *)
Lemma unknown_when_missing_witness :
  @getString Mock.sys {[ "country" := JString ""; "state" := JNull ]} "county"
  = "Unknown"
  ∧ @getString Mock.sys {[ "country" := JString ""; "state" := JNull ]} "state"
    = "<nil>".
Proof.
  split.
  - apply (proj1 (@unknown_when_missing_nil_when_null Mock.sys
                    {[ "country" := JString ""; "state" := JNull ]} "county")).
    reflexivity.
  - apply (proj2 (@unknown_when_missing_nil_when_null Mock.sys
                    {[ "country" := JString ""; "state" := JNull ]} "state")).
    reflexivity.
Defined.

(** ** Paths: elements, [Clean] and [Join] *)

Section PathElements.

Import filepath.

Lemma cleanLoop_cons (rooted : bool) (c : ascii) (rest out : string) (dotdot : nat) :
  cleanLoop rooted (String c rest) out dotdot
  = if IsPathSeparator c then cleanLoop rooted rest out dotdot
    else if isDot c && atElemEnd rest then cleanLoop rooted rest out dotdot
    else
      let element :=
        copyElement (λ p o, cleanLoop rooted p o dotdot) rest
          (append (if needSep rooted out then append out Separator else out) c) in
      match rest with
      | String c2 rest2 =>
          if isDot c && isDot c2 && atElemEnd rest2 then
            if (dotdot <? String.length out)%nat then
              cleanLoop rooted rest2
                (String.substring 0 (retreat out dotdot (String.length out - 1)) out)
                dotdot
            else if negb rooted then
              cleanLoop rooted rest2
                (append (append (if (0 <? String.length out)%nat
                                 then append out Separator else out) "."%char) "."%char)
                (String.length
                   (append (append (if (0 <? String.length out)%nat
                                    then append out Separator else out) "."%char)
                           "."%char))
            else cleanLoop rooted rest2 out dotdot
          else element
      | "" => element
      end.
Proof. reflexivity. Qed.

Lemma cleanLoop_sep (rooted : bool) (rest out : string) (dotdot : nat) :
  cleanLoop rooted (String Separator rest) out dotdot
  = cleanLoop rooted rest out dotdot.
Proof. reflexivity. Qed.

Lemma copyElement_noSep (continue : string → string → string) (e rest out : string) :
  noSep e = true → atElemEnd rest = true →
  copyElement continue (e ++ rest) out = continue rest (out ++ e).
Proof.
  revert out; induction e as [|c e IH]; intros out He Hrest.
  - rewrite append_nil_l, append_nil_r.
    destruct rest as [|c rest]; simpl in *; [reflexivity | now rewrite Hrest].
  - simpl in He. apply andb_true_iff in He as [Hc He].
    apply negb_true_iff in Hc.
    rewrite append_cons; simpl. rewrite Hc, (IH _ He Hrest).
    unfold append. now rewrite append_assoc.
Qed.

(** The tests of [Clean] for a [.] and a [..] element fail on a name. *)
Lemma name_not_dot (c : ascii) (e rest : string) :
  isName (String c e) = true → atElemEnd rest = true →
  IsPathSeparator c = false
  ∧ noSep e = true
  ∧ isDot c && atElemEnd (e ++ rest) = false
  ∧ match e ++ rest with
    | String c2 rest2 => isDot c && isDot c2 && atElemEnd rest2 = false
    | "" => True
    end.
Proof.
  unfold isName. rewrite !andb_true_iff, !negb_true_iff, !String.eqb_neq.
  intros [[[_ Hdot] Hdotdot] Hns] Hrest. simpl in Hns.
  apply andb_true_iff in Hns as [Hc He]. apply negb_true_iff in Hc.
  split; [exact Hc|]. split; [exact He|].
  unfold isDot. destruct (Ascii.eqb_spec c ".") as [->|_]; simpl.
  2: { split; [reflexivity|]. now destruct (e ++ rest). }
  destruct e as [|c2 e]; [contradiction|].
  rewrite append_cons. simpl in He.
  apply andb_true_iff in He as [Hc2 He]. apply negb_true_iff in Hc2.
  simpl. split; [exact Hc2|].
  destruct (Ascii.eqb_spec c2 ".") as [->|_]; simpl; [|reflexivity].
  destruct e as [|c3 e]; [contradiction|].
  rewrite append_cons. simpl in He.
  apply andb_true_iff in He as [Hc3 _]. now apply negb_true_iff in Hc3.
Qed.

(** [Clean] copies a name to the buffer, after a separator if one is
    needed. *)
Lemma cleanLoop_name (rooted : bool) (e rest out : string) (dotdot : nat) :
  isName e = true → atElemEnd rest = true →
  cleanLoop rooted (e ++ rest) out dotdot
  = cleanLoop rooted rest (withElement rooted out e) dotdot.
Proof.
  intros He Hrest. destruct e as [|c e]; [discriminate|].
  destruct (name_not_dot c e rest He Hrest) as (Hc & Hns & Hdot & Hdotdot).
  rewrite append_cons, cleanLoop_cons, Hc, Hdot. cbv zeta.
  assert (Helem :
    copyElement (λ p o, cleanLoop rooted p o dotdot) (e ++ rest)
      (append (if needSep rooted out then append out Separator else out) c)
    = cleanLoop rooted rest (withElement rooted out (String c e)) dotdot).
  { rewrite (copyElement_noSep _ e rest _ Hns Hrest).
    unfold withElement, append. now rewrite append_assoc. }
  destruct (e ++ rest) as [|c2 rest2] eqn:E.
  - exact Helem.
  - rewrite Hdotdot. exact Helem.
Qed.

Lemma name_not_dot_first (e : string) :
  isName e = true → ∃ c f, e = String c f ∧ IsPathSeparator c = false.
Proof.
  destruct e as [|c f]; [discriminate|]. intros He. exists c, f.
  split; [reflexivity|]. now destruct (name_not_dot c f "" He eq_refl).
Qed.

End PathElements.

Section JoinedElements.

Import filepath.

Lemma isName_nonEmpty (e : string) : isName e = true → nonEmpty e = true.
Proof.
  unfold isName, nonEmpty. rewrite !andb_true_iff. tauto.
Qed.

Lemma Join_cons2 (x y : string) (l : list string) (sep : string) :
  strings.Join (x :: y :: l) sep = x ++ sep ++ strings.Join (y :: l) sep.
Proof. reflexivity. Qed.

Lemma Join_app (l1 l2 : list string) (sep : string) :
  l1 ≠ [] → l2 ≠ [] →
  strings.Join (l1 ++ l2) sep = strings.Join l1 sep ++ sep ++ strings.Join l2 sep.
Proof.
  intros H1 H2. induction l1 as [|x l1 IH]; [contradiction|].
  destruct l1 as [|y l1].
  - destruct l2 as [|z l2]; [contradiction | reflexivity].
  - change ((x :: y :: l1) ++ l2)%list with (x :: y :: (l1 ++ l2)%list).
    rewrite !Join_cons2, !append_assoc. do 2 f_equal.
    apply IH. discriminate.
Qed.

(** Joining texts that are themselves joined elements joins all the
    elements. *)
Lemma Join_concat (segss : list (list string)) (sep : string) :
  Forall (λ segs, segs ≠ []) segss →
  strings.Join (List.map (λ segs, strings.Join segs sep) segss) sep
  = strings.Join (List.concat segss) sep.
Proof.
  induction 1 as [|segs segss Hsegs Hall IH]; [reflexivity|].
  destruct segss as [|segs2 segss].
  - simpl. now rewrite app_nil_r.
  - change (List.map _ (segs :: segs2 :: segss))
      with (strings.Join segs sep
            :: List.map (λ segs, strings.Join segs sep) (segs2 :: segss)).
    destruct (List.map (λ segs, strings.Join segs sep) (segs2 :: segss))
      as [|m ms] eqn:Em; [discriminate|].
    rewrite Join_cons2, IH.
    change (List.concat (segs :: segs2 :: segss))
      with (segs ++ List.concat (segs2 :: segss))%list.
    rewrite Join_app; [reflexivity | exact Hsegs |].
    inversion Hall as [|? ? Hsegs2 _]; subst.
    destruct segs2; [contradiction | discriminate].
Qed.

(** [Clean] on elements that are names or empty: the names are written
    to the buffer one after the other. *)
Lemma cleanLoop_elements (rooted : bool) (elems : list string) (out : string)
  (dotdot : nat) :
  forallb isNameOrEmpty elems = true →
  cleanLoop rooted (strings.Join elems (String Separator "")) out dotdot
  = fold_left (withElement rooted) (names elems) out.
Proof.
  revert out; induction elems as [|x l IH]; intros out Hall; [reflexivity|].
  simpl in Hall. apply andb_true_iff in Hall as [Hx Hall].
  unfold isNameOrEmpty in Hx. apply orb_true_iff in Hx as [Hx|Hx].
  - (* an empty element *)
    apply String.eqb_eq in Hx; subst x.
    destruct l as [|y l]; [reflexivity|].
    rewrite Join_cons2, append_nil_l, append_cons, append_nil_l, cleanLoop_sep.
    now apply IH.
  - (* a name *)
    change (names (x :: l)) with (if nonEmpty x then x :: names l else names l).
    rewrite (isName_nonEmpty x Hx). simpl fold_left.
    destruct l as [|y l].
    + change (strings.Join [x] (String Separator "")) with x.
      rewrite <- (append_nil_r x) at 1.
      now rewrite (cleanLoop_name rooted x "" out dotdot Hx).
    + rewrite Join_cons2, append_cons, append_nil_l.
      rewrite (cleanLoop_name rooted x _ out dotdot Hx) by reflexivity.
      rewrite cleanLoop_sep. now apply IH.
Qed.

Lemma withElement_nonEmpty (out e : string) :
  out ≠ "" → withElement false out e = out ++ String Separator "" ++ e.
Proof.
  intros Hout. unfold withElement, needSep, append; simpl.
  destruct out as [|c out]; [contradiction|]. simpl.
  now rewrite append_assoc.
Qed.

Lemma fold_withElement (l : list string) (out : string) :
  out ≠ "" →
  fold_left (withElement false) l out = strings.Join (out :: l) (String Separator "").
Proof.
  revert out; induction l as [|e l IH]; intros out Hout; [reflexivity|].
  simpl fold_left. rewrite (withElement_nonEmpty out e Hout), IH.
  - destruct l as [|y l]; [reflexivity|].
    now rewrite !Join_cons2, !append_assoc.
  - destruct out; [contradiction | discriminate].
Qed.

(** [Join] of a name followed by names and empty elements joins the
    names with single separators. *)
Lemma Join_elements (first : string) (rest : list string) :
  isName first = true → forallb isNameOrEmpty rest = true →
  filepath.Join (first :: rest)
  = strings.Join (first :: names rest) (String Separator "").
Proof.
  intros Hfirst Hrest.
  assert (Hne : first ≠ "") by (intros ->; discriminate).
  unfold filepath.Join. rewrite (proj2 (String.eqb_neq first "") Hne).
  assert (Hall : forallb isNameOrEmpty (first :: rest) = true).
  { simpl. unfold isNameOrEmpty at 1. now rewrite Hfirst, orb_true_r. }
  pose proof (cleanLoop_elements false (first :: rest) "" 0 Hall) as Hloop.
  change (names (first :: rest))
    with (if nonEmpty first then first :: names rest else names rest) in Hloop.
  rewrite (isName_nonEmpty first Hfirst) in Hloop. simpl fold_left in Hloop.
  change (withElement false "" first) with ("" ++ first) in Hloop.
  rewrite append_nil_l, (fold_withElement _ first Hne) in Hloop.
  destruct (name_not_dot_first first Hfirst) as (c & f & Hf & Hc).
  assert (Hpath : ∃ path,
             strings.Join (first :: rest) (String Separator "") = String c path).
  { subst first. destruct rest; eexists; reflexivity. }
  destruct Hpath as [path Hpath]. rewrite Hpath in *.
  unfold Clean. rewrite Hc, Hloop. subst first.
  destruct (names rest); reflexivity.
Qed.

End JoinedElements.

(** ** [Clean] on an arbitrary path that is not rooted *)

Section CleanPrefix.

Import filepath.

Lemma noLeadSep_append (out e : string) :
  noLeadSep out = true → out ≠ "" → noLeadSep (out ++ e) = true.
Proof. destruct out; [contradiction | now intros]. Qed.

Lemma noLeadSep_substring (out : string) (w : nat) :
  noLeadSep out = true → noLeadSep (String.substring 0 w out) = true.
Proof. destruct out, w; simpl; auto. Qed.

Lemma needSep_not_rooted (out : string) :
  needSep false out = negb (String.length out =? 0)%nat.
Proof. reflexivity. Qed.

Lemma noLeadSep_element_start (out : string) (c : ascii) :
  noLeadSep out = true → IsPathSeparator c = false →
  noLeadSep (append (if needSep false out then append out Separator else out) c)
  = true.
Proof.
  rewrite needSep_not_rooted. destruct out as [|o out]; simpl.
  - now intros _ ->.
  - now intros.
Qed.

(** The copy loop stops where the element ends. *)
Lemma copyElement_split (continue : string → string → string) (x rest out : string) :
  atElemEnd rest = true →
  ∃ e x2 : string,
    String.length x2 <= String.length x
    ∧ copyElement continue (x ++ rest) out = continue (x2 ++ rest) (out ++ e).
Proof.
  intros Hrest. revert out; induction x as [|c x IH]; intros out.
  - exists "", "". split; [reflexivity|]. rewrite append_nil_l, append_nil_r.
    destruct rest as [|c rest]; simpl in *; [reflexivity | now rewrite Hrest].
  - rewrite append_cons; simpl.
    destruct (IsPathSeparator c) eqn:Hc.
    + exists "", (String c x). split; [reflexivity|].
      now rewrite append_nil_r, append_cons.
    + destruct (IH (append out c)) as (e & x2 & Hlen & Heq).
      exists (String c e), x2. split; [lia|].
      rewrite Heq. unfold append. now rewrite append_assoc.
Qed.

(** Reading a prefix of the path up to the end of an element leaves the
    loop in some state whose buffer does not begin with a separator. *)
Lemma cleanLoop_prefix (n : nat) :
  ∀ (x rest out : string) (dotdot : nat),
    String.length x <= n → atElemEnd rest = true → noLeadSep out = true →
    ∃ (out' : string) (dotdot' : nat),
      noLeadSep out' = true
      ∧ cleanLoop false (x ++ rest) out dotdot = cleanLoop false rest out' dotdot'.
Proof.
  induction n as [|n IH]; intros x rest out dotdot Hlen Hrest Hout.
  - destruct x; [|simpl in Hlen; lia]. now exists out, dotdot.
  - destruct x as [|c x]; [now exists out, dotdot|].
    simpl in Hlen. rewrite append_cons, cleanLoop_cons.
    destruct (IsPathSeparator c) eqn:Hc; [apply IH; [lia | auto ..]|].
    destruct (isDot c && atElemEnd (x ++ rest)); [apply IH; [lia | auto ..]|].
    cbv zeta.
    assert (Hfirst : noLeadSep (append (if needSep false out
                                        then append out Separator else out) c) = true).
    { now apply noLeadSep_element_start. }
    assert (Helem : ∃ (out' : string) (dotdot' : nat),
               noLeadSep out' = true
               ∧ copyElement (λ p o, cleanLoop false p o dotdot) (x ++ rest)
                   (append (if needSep false out
                            then append out Separator else out) c)
                 = cleanLoop false rest out' dotdot').
    { destruct (copyElement_split (λ p o, cleanLoop false p o dotdot) x rest
                  (append (if needSep false out
                           then append out Separator else out) c) Hrest)
        as (e & x2 & Hlen2 & ->).
      apply IH; [lia | exact Hrest |].
      apply noLeadSep_append; [exact Hfirst|].
      unfold append. destruct (if needSep false out then _ else _); discriminate. }
    destruct x as [|c2 x].
    + rewrite append_nil_l in *. destruct rest as [|c2 rest2]; [exact Helem|].
      simpl in Hrest. unfold isDot at 2.
      replace (Ascii.eqb c2 ".") with false; [now rewrite andb_false_r|].
      symmetry. apply Ascii.eqb_neq. intros ->. discriminate.
    + rewrite append_cons in *. simpl in Hlen.
      destruct (isDot c && isDot c2 && atElemEnd (x ++ rest)); [|exact Helem].
      destruct (dotdot <? String.length out)%nat.
      * apply IH; [lia | exact Hrest | now apply noLeadSep_substring].
      * simpl negb. cbv iota. apply IH; [lia | exact Hrest |].
        unfold append. rewrite !append_assoc.
        destruct out; simpl; [reflexivity | exact Hout].
Qed.

(** The result of [Clean] on a path that does not begin with a
    separator does not begin with one either, and is not empty. *)
Lemma Clean_not_rooted (c : ascii) (path : string) :
  IsPathSeparator c = false →
  Clean (String c path) ≠ "" ∧ noLeadSep (Clean (String c path)) = true.
Proof.
  intros Hc. unfold Clean. rewrite Hc.
  destruct (cleanLoop_prefix _ (String c path) "" "" 0 (le_n _) eq_refl eq_refl)
    as (out' & dotdot' & Hout' & Heq).
  rewrite append_nil_r in Heq. rewrite Heq. simpl.
  destruct out'; simpl; [split; [discriminate | reflexivity]|].
  split; [discriminate | exact Hout'].
Qed.

(** After any directory that does not begin with a separator, a name
    is the last element of the cleaned path. *)
Lemma Clean_ends_with_name (dir base : string) :
  dir ≠ "" → noLeadSep dir = true → isName base = true →
  ∃ pre : string,
    Clean (dir ++ String Separator base) = pre ++ base
    ∧ (pre = "" ∨ ∃ pre', pre = pre' ++ String Separator "").
Proof.
  intros Hne Hlead Hbase. destruct dir as [|c dir]; [contradiction|].
  simpl in Hlead. apply negb_true_iff in Hlead.
  rewrite append_cons. unfold Clean. rewrite Hlead.
  rewrite <- append_cons.
  destruct (cleanLoop_prefix _ (String c dir) (String Separator base) "" 0
              (le_n _) eq_refl eq_refl)
    as (out' & dotdot' & Hout' & ->).
  rewrite cleanLoop_sep.
  assert (Hb : cleanLoop false base out' dotdot' = withElement false out' base).
  { rewrite <- (append_nil_r base) at 1.
    now rewrite (cleanLoop_name false base "" out' dotdot' Hbase eq_refl). }
  rewrite Hb. unfold withElement. rewrite needSep_not_rooted.
  destruct (name_not_dot_first base Hbase) as (b & f & -> & _).
  destruct out' as [|o out'].
  - exists "". split; [reflexivity | now left].
  - exists (String o out' ++ String Separator ""). split; [reflexivity|].
    right; eauto.
Qed.

End CleanPrefix.

(** ** [Base] *)

Section BaseOfName.

Import filepath.

Lemma get_Some_lt (s : string) (i : nat) :
  i < String.length s → ∃ c, String.get i s = Some c.
Proof.
  revert i; induction s as [|c s IH]; simpl; intros i Hi; [lia|].
  destruct i as [|i]; [eauto | apply IH; lia].
Qed.

Lemma noSep_get (s : string) (i : nat) (c : ascii) :
  noSep s = true → String.get i s = Some c → IsPathSeparator c = false.
Proof.
  revert i; induction s as [|d s IH]; simpl; intros i Hs Hget; [discriminate|].
  apply andb_true_iff in Hs as [Hd Hs].
  destruct i as [|i]; [|now apply (IH i)].
  injection Hget as <-. now apply negb_true_iff.
Qed.

Lemma lastElemStart_skip (pre b : string) (k : nat) :
  noSep b = true → k <= String.length b →
  lastElemStart (pre ++ b) (String.length pre + k)
  = lastElemStart (pre ++ b) (String.length pre).
Proof.
  intros Hb. induction k as [|k IH]; intros Hk; [now rewrite Nat.add_0_r|].
  rewrite Nat.add_succ_r; simpl. rewrite get_append_r.
  destruct (get_Some_lt b k) as [c Hc]; [lia|].
  rewrite Hc; simpl. rewrite (noSep_get b k c Hb Hc). apply IH; lia.
Qed.

Lemma lastElemStart_after_sep (pre b : string) :
  pre = "" ∨ (∃ pre', pre = pre' ++ String Separator "") →
  lastElemStart (pre ++ b) (String.length pre) = String.length pre.
Proof.
  intros [->|[pre' ->]]; [reflexivity|].
  rewrite length_append; simpl String.length.
  rewrite Nat.add_1_r; simpl.
  rewrite append_assoc, <- (Nat.add_0_r (String.length pre')), get_append_r.
  reflexivity.
Qed.

Lemma stripTrailing_name (pre b : string) :
  noSep b = true → b ≠ "" →
  stripTrailing (pre ++ b) (String.length (pre ++ b)) = String.length (pre ++ b).
Proof.
  intros Hb Hne. rewrite length_append.
  destruct (String.length b) as [|m] eqn:Hlen; [now destruct b|].
  rewrite Nat.add_succ_r; simpl. rewrite get_append_r.
  destruct (get_Some_lt b m) as [c Hc]; [lia|].
  rewrite Hc; simpl. now rewrite (noSep_get b m c Hb Hc).
Qed.

Lemma isName_noSep (e : string) : isName e = true → noSep e = true ∧ e ≠ "".
Proof.
  unfold isName. rewrite !andb_true_iff, !negb_true_iff, !String.eqb_neq. tauto.
Qed.

(** The base of a path that ends in a name after a separator is the
    name. *)
Lemma Base_of_name (pre b : string) :
  pre = "" ∨ (∃ pre', pre = pre' ++ String Separator "") →
  isName b = true → Base (pre ++ b) = b.
Proof.
  intros Hpre Hb. destruct (isName_noSep b Hb) as [Hns Hne].
  unfold Base.
  assert (Hne' : pre ++ b ≠ "").
  { destruct pre; [now rewrite append_nil_l | discriminate]. }
  rewrite (proj2 (String.eqb_neq _ _) Hne').
  rewrite (stripTrailing_name pre b Hns Hne), substring_all. cbv zeta.
  rewrite length_append, (lastElemStart_skip pre b _ Hns (le_n _)).
  rewrite (lastElemStart_after_sep pre b Hpre).
  replace (String.length pre + String.length b - String.length pre)
    with (String.length b) by lia.
  rewrite substring_append_r.
  now rewrite (proj2 (String.eqb_neq _ _) Hne).
Qed.

End BaseOfName.

(** ** The elements of a path *)

Section Elements.

Import filepath.

Lemma pathElements_noSep (e : string) : noSep e = true → pathElements e = [e].
Proof.
  induction e as [|c e IH]; simpl; [reflexivity|].
  intros H. apply andb_true_iff in H as [Hc He].
  apply negb_true_iff in Hc. now rewrite Hc, (IH He).
Qed.

Lemma pathElements_app_sep (e rest : string) :
  noSep e = true →
  pathElements (e ++ String Separator rest) = e :: pathElements rest.
Proof.
  induction e as [|c e IH]; [reflexivity|].
  simpl noSep. intros H. apply andb_true_iff in H as [Hc He].
  apply negb_true_iff in Hc. rewrite append_cons. simpl.
  now rewrite Hc, (IH He).
Qed.

Lemma pathElements_Join (elems : list string) :
  elems ≠ [] → forallb noSep elems = true →
  pathElements (strings.Join elems (String Separator "")) = elems.
Proof.
  induction elems as [|x l IH]; [contradiction|]. intros _ Hall.
  simpl in Hall. apply andb_true_iff in Hall as [Hx Hall].
  destruct l as [|y l].
  - now apply pathElements_noSep.
  - rewrite Join_cons2, append_cons, append_nil_l.
    rewrite (pathElements_app_sep _ _ Hx), IH; [reflexivity | discriminate | exact Hall].
Qed.

Lemma sanitizeByte_sep (c : ascii) :
  IsPathSeparator (sanitizeByte c) = IsPathSeparator c.
Proof.
  unfold sanitizeByte. destruct (Ascii.eqb_spec c space) as [->|]; reflexivity.
Qed.

(** [sanitize] keeps the separators, so it keeps what is a name. *)
Lemma noSep_sanitize (s : string) : noSep (sanitize s) = noSep s.
Proof.
  induction s as [|c s IH]; [reflexivity|].
  rewrite sanitize_cons; simpl. now rewrite sanitizeByte_sep, IH.
Qed.

Lemma String_inj_iff (c d : ascii) (s t : string) :
  String c s = String d t ↔ c = d ∧ s = t.
Proof. split; [now intros [= -> ->] | now intros [-> ->]]. Qed.

Lemma sanitize_eq_dots (s : string) :
  (sanitize s = "" ↔ s = "") ∧ (sanitize s = "." ↔ s = ".")
  ∧ (sanitize s = ".." ↔ s = "..").
Proof.
  assert (Hdot : ∀ c, sanitizeByte c = "."%char ↔ c = "."%char).
  { intros c. unfold sanitizeByte.
    destruct (Ascii.eqb_spec c space) as [->|]; [split; discriminate | tauto]. }
  destruct s as [|c [|c2 [|c3 s]]]; rewrite ?sanitize_cons, ?sanitize_nil;
    (split; [|split]);
    first [ tauto
          | split; discriminate
          | rewrite !String_inj_iff, !Hdot; tauto ].
Qed.

Lemma isName_sanitize (s : string) : isName (sanitize s) = isName s.
Proof.
  unfold isName. rewrite noSep_sanitize.
  destruct (sanitize_eq_dots s) as (H0 & H1 & H2).
  rewrite <- !String.eqb_eq in H0, H1, H2.
  destruct (String.eqb (sanitize s) ""), (String.eqb s "");
    destruct (String.eqb (sanitize s) "."), (String.eqb s ".");
    destruct (String.eqb (sanitize s) ".."), (String.eqb s "..");
    try reflexivity; intuition congruence.
Qed.

End Elements.

(** ** The mover *)

Section Destination.

Import filepath.

Lemma Join_nonEmpty_first (first : string) (rest : list string) :
  first ≠ "" →
  filepath.Join (first :: rest)
  = Clean (strings.Join (first :: rest) (String Separator "")).
Proof.
  intros Hne. unfold filepath.Join.
  now rewrite (proj2 (String.eqb_neq first "") Hne).
Qed.

(** A joined path whose first element does not begin with a separator
    is relative and not empty. *)
Lemma Join_relative (c : ascii) (f : string) (rest : list string) :
  IsPathSeparator c = false →
  filepath.Join (String c f :: rest) ≠ ""
  ∧ noLeadSep (filepath.Join (String c f :: rest)) = true.
Proof.
  intros Hc. rewrite Join_nonEmpty_first by discriminate.
  assert (Hpath : ∃ path,
             strings.Join (String c f :: rest) (String Separator "")
             = String c path)
    by (destruct rest; eexists; reflexivity).
  destruct Hpath as [path ->]. now apply Clean_not_rooted.
Qed.

Lemma folderPath_relative (location : gmap string string) :
  folderPath location ≠ "" ∧ noLeadSep (folderPath location) = true.
Proof. unfold folderPath. now apply Join_relative. Qed.

(** The new path ends in the base name of the image, whatever the
    Place. *)
Lemma newImagePath_ends_with_base (imagePath : string) (location : gmap string string) :
  isName (Base imagePath) = true →
  ∃ pre : string,
    newImagePath imagePath location = pre ++ Base imagePath
    ∧ (pre = "" ∨ ∃ pre', pre = pre' ++ String Separator "").
Proof.
  intros Hbase. destruct (folderPath_relative location) as [Hne Hlead].
  unfold newImagePath. rewrite (Join_nonEmpty_first _ _ Hne).
  change (strings.Join [folderPath location; Base imagePath] (String Separator ""))
    with (folderPath location ++ String Separator "" ++ Base imagePath).
  rewrite append_cons, append_nil_l.
  now apply Clean_ends_with_name.
Qed.

Lemma isNameOrEmpty_noSep (elems : list string) :
  forallb isNameOrEmpty elems = true → forallb noSep elems = true.
Proof.
  induction elems as [|e l IH]; [reflexivity|]. simpl.
  rewrite !andb_true_iff. intros [He Hl]. split; [|now apply IH].
  unfold isNameOrEmpty in He. apply orb_true_iff in He as [He|He].
  - apply String.eqb_eq in He. now subst e.
  - now apply isName_noSep.
Qed.

Lemma names_noSep (elems : list string) :
  forallb noSep elems = true → forallb noSep (names elems) = true.
Proof.
  induction elems as [|e l IH]; [reflexivity|]. simpl.
  rewrite andb_true_iff. intros [He Hl]. unfold names; simpl.
  destruct (nonEmpty e); simpl; [rewrite He|]; now apply IH.
Qed.

(** The destination directory when every sanitized field is a sequence
    of names and empty elements between separators: the names, in
    order, below [sorted_images]. *)
Lemma folderPath_segments (location : gmap string string)
  (segs1 segs2 segs3 segs4 : list string) :
  sanitize (index location "country") = strings.Join segs1 "/" →
  sanitize (index location "state") = strings.Join segs2 "/" →
  sanitize (index location "state_district") = strings.Join segs3 "/" →
  sanitize (index location "county") = strings.Join segs4 "/" →
  segs1 ≠ [] → segs2 ≠ [] → segs3 ≠ [] → segs4 ≠ [] →
  forallb isNameOrEmpty (segs1 ++ segs2 ++ segs3 ++ segs4) = true →
  folderPath location
  = strings.Join ("sorted_images" :: names (segs1 ++ segs2 ++ segs3 ++ segs4)) "/"
  ∧ levelsBelow "sorted_images" (folderPath location)
    = Some (names (segs1 ++ segs2 ++ segs3 ++ segs4)).
Proof.
  intros H1 H2 H3 H4 N1 N2 N3 N4 Hall.
  assert (Hpath : folderPath location
            = strings.Join ("sorted_images"
                            :: names (segs1 ++ segs2 ++ segs3 ++ segs4)) "/").
  { unfold folderPath. rewrite H1, H2, H3, H4.
    rewrite Join_nonEmpty_first by discriminate.
    change (strings.Join
              [ "sorted_images"; strings.Join segs1 "/"; strings.Join segs2 "/";
                strings.Join segs3 "/"; strings.Join segs4 "/" ]
              (String Separator ""))
      with (strings.Join
              (List.map (λ segs, strings.Join segs (String Separator ""))
                 [["sorted_images"]; segs1; segs2; segs3; segs4])
              (String Separator "")).
    rewrite (Join_concat [["sorted_images"]; segs1; segs2; segs3; segs4]
               (String Separator "")).
    2: { repeat constructor; auto; discriminate. }
    simpl List.concat. rewrite app_nil_r.
    rewrite <- Join_nonEmpty_first by discriminate.
    now rewrite Join_elements. }
  split; [exact Hpath|].
  unfold levelsBelow. rewrite Hpath, pathElements_Join; [reflexivity | discriminate |].
  simpl. now apply names_noSep, isNameOrEmpty_noSep.
Qed.

(** The destination directory for four fields that are names. *)
Lemma folderPath_names (location : gmap string string) :
  isName (index location "country") = true →
  isName (index location "state") = true →
  isName (index location "state_district") = true →
  isName (index location "county") = true →
  folderPath location
  = "sorted_images/" ++ sanitize (index location "country") ++ "/"
    ++ sanitize (index location "state") ++ "/"
    ++ sanitize (index location "state_district") ++ "/"
    ++ sanitize (index location "county")
  ∧ levelsBelow "sorted_images" (folderPath location)
    = Some [ sanitize (index location "country");
             sanitize (index location "state");
             sanitize (index location "state_district");
             sanitize (index location "county") ].
Proof.
  intros H1 H2 H3 H4. rewrite <- isName_sanitize in H1, H2, H3, H4.
  destruct (folderPath_segments location
              [sanitize (index location "country")]
              [sanitize (index location "state")]
              [sanitize (index location "state_district")]
              [sanitize (index location "county")])
    as [Hpath Hlevels]; try reflexivity; try discriminate.
  { simpl. unfold isNameOrEmpty. rewrite H1, H2, H3, H4.
    now rewrite !orb_true_r. }
  unfold names in Hpath, Hlevels; simpl in Hpath, Hlevels.
  rewrite !isName_nonEmpty in Hpath, Hlevels by assumption.
  split; [exact Hpath | exact Hlevels].
Qed.

(** Below a directory of names, the new path is the directory, a
    separator and the base name. *)
Lemma newImagePath_names (imagePath : string) (location : gmap string string) :
  isName (index location "country") = true →
  isName (index location "state") = true →
  isName (index location "state_district") = true →
  isName (index location "county") = true →
  isName (Base imagePath) = true →
  newImagePath imagePath location
  = folderPath location ++ "/" ++ Base imagePath.
Proof.
  intros H1 H2 H3 H4 Hbase.
  destruct (folderPath_names location H1 H2 H3 H4) as [Hpath _].
  rewrite <- isName_sanitize in H1, H2, H3, H4.
  unfold newImagePath.
  rewrite (Join_nonEmpty_first _ _ (proj1 (folderPath_relative location))).
  change (strings.Join [folderPath location; Base imagePath] (String Separator ""))
    with (folderPath location ++ "/" ++ Base imagePath).
  rewrite Hpath.
  change ("sorted_images/" ++ sanitize (index location "country") ++ "/"
          ++ sanitize (index location "state") ++ "/"
          ++ sanitize (index location "state_district") ++ "/"
          ++ sanitize (index location "county"))
    with (strings.Join [ "sorted_images";
                         sanitize (index location "country");
                         sanitize (index location "state");
                         sanitize (index location "state_district");
                         sanitize (index location "county") ] "/").
  rewrite <- (Join_app _ [Base imagePath]) by discriminate.
  cbn [app]. rewrite <- Join_nonEmpty_first by discriminate.
  rewrite Join_elements; [|reflexivity|].
  - unfold names; simpl. now rewrite !isName_nonEmpty by assumption.
  - simpl. unfold isNameOrEmpty. rewrite H1, H2, H3, H4, Hbase.
    now rewrite !orb_true_r.
Qed.

(** Dropping the empty elements twice is dropping them once, and keeps
    what the elements are. *)
Lemma names_names (elems : list string) : names (names elems) = names elems.
Proof.
  unfold names. induction elems as [|e l IH]; [reflexivity|]. simpl.
  destruct (nonEmpty e) eqn:He; simpl; [rewrite He|]; now rewrite IH.
Qed.

Lemma names_isNameOrEmpty (elems : list string) :
  forallb isNameOrEmpty elems = true → forallb isNameOrEmpty (names elems) = true.
Proof.
  unfold names. induction elems as [|e l IH]; [reflexivity|]. simpl.
  rewrite andb_true_iff. intros [He Hl].
  destruct (nonEmpty e); simpl; [rewrite He|]; now apply IH.
Qed.

(** The new path of the file when every sanitized field is a sequence of
    names and empty elements: the destination directory, a separator and
    the base name, so that the file lies below as many directories as
    the fields hold names. *)
Lemma newImagePath_segments (imagePath : string) (location : gmap string string)
  (segs1 segs2 segs3 segs4 : list string) :
  sanitize (index location "country") = strings.Join segs1 "/" →
  sanitize (index location "state") = strings.Join segs2 "/" →
  sanitize (index location "state_district") = strings.Join segs3 "/" →
  sanitize (index location "county") = strings.Join segs4 "/" →
  segs1 ≠ [] → segs2 ≠ [] → segs3 ≠ [] → segs4 ≠ [] →
  forallb isNameOrEmpty (segs1 ++ segs2 ++ segs3 ++ segs4) = true →
  isName (Base imagePath) = true →
  newImagePath imagePath location = folderPath location ++ "/" ++ Base imagePath
  ∧ levelsBelow "sorted_images" (newImagePath imagePath location)
    = Some (names (segs1 ++ segs2 ++ segs3 ++ segs4) ++ [Base imagePath])%list.
Proof.
  intros H1 H2 H3 H4 N1 N2 N3 N4 Hall Hbase.
  destruct (folderPath_segments location _ _ _ _ H1 H2 H3 H4 N1 N2 N3 N4 Hall)
    as [Hpath _].
  set (levels := names (segs1 ++ segs2 ++ segs3 ++ segs4)) in *.
  assert (Hlevels : forallb isNameOrEmpty (levels ++ [Base imagePath])%list = true).
  { rewrite forallb_app. unfold levels. rewrite names_isNameOrEmpty by assumption.
    simpl. unfold isNameOrEmpty. rewrite Hbase. now rewrite orb_true_r. }
  assert (Hnew : newImagePath imagePath location
            = strings.Join ("sorted_images" :: levels ++ [Base imagePath])%list "/").
  { unfold newImagePath.
    rewrite (Join_nonEmpty_first _ _ (proj1 (folderPath_relative location))).
    change (strings.Join [folderPath location; Base imagePath] (String Separator ""))
      with (folderPath location ++ "/" ++ Base imagePath).
    rewrite Hpath.
    rewrite <- (Join_app _ [Base imagePath]) by discriminate.
    change (("sorted_images" :: levels) ++ [Base imagePath])%list
      with ("sorted_images" :: levels ++ [Base imagePath])%list.
    rewrite <- Join_nonEmpty_first by discriminate.
    rewrite Join_elements; [|reflexivity|exact Hlevels].
    unfold names at 1. rewrite List.filter_app. fold (names levels).
    unfold levels at 1. rewrite names_names. fold levels.
    simpl List.filter. now rewrite (isName_nonEmpty _ Hbase). }
  split.
  - rewrite Hnew, Hpath.
    change ("sorted_images" :: levels ++ [Base imagePath])%list
      with (("sorted_images" :: levels) ++ [Base imagePath])%list.
    now rewrite Join_app by discriminate.
  - unfold levelsBelow.
    rewrite Hnew, pathElements_Join; [reflexivity | discriminate |].
    simpl. now apply isNameOrEmpty_noSep.
Qed.

(** The two ways [moveImage] goes: the directory cannot be created, or
    it is there and the file is renamed. *)
Lemma moveImage_refused {sys : Sys} (imagePath : string)
  (location : gmap string string) (w w1 : World) (err : error) :
  os_MkdirAll (folderPath location) ModePerm w = (Some err, w1) →
  moveImage imagePath location w
  = (Some err, w1, [EvMkdirAll (folderPath location) ModePerm]).
Proof. intros Hmk. unfold moveImage; run_monad. now rewrite Hmk. Qed.

Lemma moveImage_renames {sys : Sys} (imagePath : string)
  (location : gmap string string) (w w1 : World) :
  os_MkdirAll (folderPath location) ModePerm w = (None, w1) →
  moveImage imagePath location w
  = ((os_Rename imagePath (newImagePath imagePath location) w1).1,
     (os_Rename imagePath (newImagePath imagePath location) w1).2,
     [ EvMkdirAll (folderPath location) ModePerm;
       EvRename imagePath (newImagePath imagePath location) ]).
Proof.
  intros Hmk. unfold moveImage; run_monad. rewrite Hmk.
  now destruct (os_Rename imagePath (newImagePath imagePath location) w1).
Qed.

End Destination.

(** C1. For every source path and every Place, [moveImage] creates the
    directory [Join("sorted_images", sanitize(country), sanitize(state),
    sanitize(state_district), sanitize(county))], a path relative to the
    working directory, and then renames the source to that directory
    joined with the base name of the source. These are its only calls:
    nothing looks whether the target exists. The base name is not
    sanitized, and when it is a proper file name it is the base name of
    the new path. *)
Theorem moveImage_destination {sys : Sys}
  (imagePath : string) (location : gmap string string) (w : World) :
  let dir :=
    filepath.Join [ "sorted_images";
                    sanitize (index location "country");
                    sanitize (index location "state");
                    sanitize (index location "state_district");
                    sanitize (index location "county") ] in
  let target := filepath.Join [dir; filepath.Base imagePath] in
  (∀ (err : error) (w1 : World),
     os_MkdirAll dir ModePerm w = (Some err, w1) →
     moveImage imagePath location w = (Some err, w1, [EvMkdirAll dir ModePerm]))
  ∧ (∀ w1 : World,
       os_MkdirAll dir ModePerm w = (None, w1) →
       moveImage imagePath location w
       = ((os_Rename imagePath target w1).1, (os_Rename imagePath target w1).2,
          [EvMkdirAll dir ModePerm; EvRename imagePath target]))
  ∧ noLeadSep dir = true
  ∧ (isName (filepath.Base imagePath) = true →
     filepath.Base target = filepath.Base imagePath).
Proof.
  cbv zeta. fold (folderPath location). fold (newImagePath imagePath location).
  split; [|split; [|split]].
  - intros err w1 Hmk. now apply moveImage_refused.
  - intros w1 Hmk. now apply moveImage_renames.
  - apply folderPath_relative.
  - intros Hbase.
    destruct (newImagePath_ends_with_base imagePath location Hbase)
      as (pre & -> & Hpre).
    now apply Base_of_name.
Qed.

(** The theorem in the test double: [images/trip.jpg] moved to the Place
    of San Francisco. *)
Lemma moveImage_destination_witness :
  (@moveImage Mock.sys "images/trip.jpg"
     {[ "country" := "United States"; "state" := "California";
        "state_district" := "Unknown"; "county" := "San Francisco County" ]}
     Mock.fixture).2
  = [ EvMkdirAll "sorted_images/United_States/California/Unknown/San_Francisco_County" 511;
      EvRename "images/trip.jpg"
        "sorted_images/United_States/California/Unknown/San_Francisco_County/trip.jpg" ]
  ∧ filepath.Base
      "sorted_images/United_States/California/Unknown/San_Francisco_County/trip.jpg"
    = "trip.jpg".
Proof.
  pose proof (@moveImage_destination Mock.sys "images/trip.jpg"
     {[ "country" := "United States"; "state" := "California";
        "state_district" := "Unknown"; "county" := "San Francisco County" ]}
     Mock.fixture) as H.
  cbv zeta in H. destruct H as (_ & Hmove & _ & Hbase). split.
  - rewrite (Hmove Mock.fixture eq_refl). reflexivity.
  - exact (Hbase eq_refl).
Defined.

(** The claim C9 as written fails: with the empty string for
    [state_district], [Join] drops the element and the destination has
    three levels. *)
Lemma empty_state_district_gives_three_levels :
  folderPath {[ "country" := "US"; "state" := "California";
                "state_district" := ""; "county" := "Alameda County" ]}
  = "sorted_images/US/California/Alameda_County"
  ∧ levelsBelow "sorted_images"
      (folderPath {[ "country" := "US"; "state" := "California";
                     "state_district" := ""; "county" := "Alameda County" ]})
    = Some ["US"; "California"; "Alameda_County"]
  ∧ newImagePath "images/trip.jpg"
      {[ "country" := "US"; "state" := "California";
         "state_district" := ""; "county" := "Alameda County" ]}
    = "sorted_images/US/California/Alameda_County/trip.jpg".
Proof. repeat split; reflexivity. Qed.

(** C9, amended. After moving a file with the Place (US, California,
    Unknown, Alameda County), its new path is
    [sorted_images/US/California/Unknown/Alameda_County/<basename>]. The
    destination has exactly four directory levels below [sorted_images]
    whenever each of the four fields is a name: not empty, without [/],
    and neither [.] nor [..]. *)
Theorem destination_has_four_levels_for_names {sys : Sys} (imagePath : string) :
  isName (filepath.Base imagePath) = true →
  (∀ w w1 : World,
     os_MkdirAll "sorted_images/US/California/Unknown/Alameda_County" ModePerm w
     = (None, w1) →
     (moveImage imagePath alameda w).2
     = [ EvMkdirAll "sorted_images/US/California/Unknown/Alameda_County" ModePerm;
         EvRename imagePath
           ("sorted_images/US/California/Unknown/Alameda_County/"
            ++ filepath.Base imagePath) ])
  ∧ (∀ location : gmap string string,
       isName (index location "country") = true →
       isName (index location "state") = true →
       isName (index location "state_district") = true →
       isName (index location "county") = true →
       levelsBelow "sorted_images" (folderPath location)
       = Some [ sanitize (index location "country");
                sanitize (index location "state");
                sanitize (index location "state_district");
                sanitize (index location "county") ]
       ∧ newImagePath imagePath location
         = "sorted_images/" ++ sanitize (index location "country") ++ "/"
           ++ sanitize (index location "state") ++ "/"
           ++ sanitize (index location "state_district") ++ "/"
           ++ sanitize (index location "county") ++ "/"
           ++ filepath.Base imagePath).
Proof.
  intros Hbase. split.
  - intros w w1 Hmk.
    change "sorted_images/US/California/Unknown/Alameda_County"
      with (folderPath alameda) in Hmk.
    rewrite (moveImage_renames imagePath alameda w w1 Hmk). cbn [snd].
    now rewrite (newImagePath_names imagePath alameda).
  - intros location H1 H2 H3 H4.
    destruct (folderPath_names location H1 H2 H3 H4) as [Hpath Hlevels].
    split; [exact Hlevels|].
    rewrite (newImagePath_names imagePath location H1 H2 H3 H4 Hbase), Hpath.
    now rewrite !append_assoc.
Qed.

(** The theorem for [images/trip.jpg] and the Place of the claim, in the
    test double. *)
Lemma destination_has_four_levels_witness :
  (@moveImage Mock.sys "images/trip.jpg" alameda Mock.fixture).2
  = [ EvMkdirAll "sorted_images/US/California/Unknown/Alameda_County" 511;
      EvRename "images/trip.jpg"
        "sorted_images/US/California/Unknown/Alameda_County/trip.jpg" ]
  ∧ levelsBelow "sorted_images" (folderPath alameda)
    = Some ["US"; "California"; "Unknown"; "Alameda_County"].
Proof.
  destruct (@destination_has_four_levels_for_names Mock.sys "images/trip.jpg" eq_refl)
    as [Hmove Hlevels].
  split.
  - exact (Hmove Mock.fixture Mock.fixture eq_refl).
  - exact (proj1 (Hlevels alameda eq_refl eq_refl eq_refl eq_refl)).
Defined.

(** C10. [sanitize] passes every path separator through, and [Join]
    interprets it: when the sanitized fields are sequences of names and
    empty elements between separators, [moveImage] creates the directory
    whose levels below [sorted_images] are the names, the empty elements
    being dropped, and renames the file to that directory, a separator
    and its base name. So with the country [a/b] the file is placed five
    levels deep, and with an empty state district three levels deep. *)
Theorem separators_and_empty_fields_change_depth {sys : Sys} :
  (∀ (s : string) (i : nat),
     String.get i s = Some "/"%char → String.get i (sanitize s) = Some "/"%char)
  ∧ (∀ (location : gmap string string) (segs1 segs2 segs3 segs4 : list string),
       sanitize (index location "country") = strings.Join segs1 "/" →
       sanitize (index location "state") = strings.Join segs2 "/" →
       sanitize (index location "state_district") = strings.Join segs3 "/" →
       sanitize (index location "county") = strings.Join segs4 "/" →
       segs1 ≠ [] → segs2 ≠ [] → segs3 ≠ [] → segs4 ≠ [] →
       forallb isNameOrEmpty (segs1 ++ segs2 ++ segs3 ++ segs4) = true →
       levelsBelow "sorted_images" (folderPath location)
       = Some (names (segs1 ++ segs2 ++ segs3 ++ segs4))
       ∧ ∀ imagePath : string,
           isName (filepath.Base imagePath) = true →
           levelsBelow "sorted_images" (newImagePath imagePath location)
           = Some (names (segs1 ++ segs2 ++ segs3 ++ segs4)
                   ++ [filepath.Base imagePath])%list
           ∧ ∀ w w1 : World,
               os_MkdirAll (folderPath location) ModePerm w = (None, w1) →
               (moveImage imagePath location w).2
               = [ EvMkdirAll (folderPath location) ModePerm;
                   EvRename imagePath
                     (folderPath location ++ "/" ++ filepath.Base imagePath) ])
  ∧ (∃ (location : gmap string string) (levels : list string),
       index location "country" = "a/b"
       ∧ levelsBelow "sorted_images" (folderPath location) = Some levels
       ∧ (4 < List.length levels)%nat
       ∧ ∀ (imagePath : string) (w w1 : World),
           isName (filepath.Base imagePath) = true →
           os_MkdirAll "sorted_images/a/b/S/D/C" ModePerm w = (None, w1) →
           (moveImage imagePath location w).2
           = [ EvMkdirAll "sorted_images/a/b/S/D/C" ModePerm;
               EvRename imagePath
                 ("sorted_images/a/b/S/D/C/" ++ filepath.Base imagePath) ])
  ∧ (∃ (location : gmap string string) (levels : list string),
       index location "state_district" = ""
       ∧ levelsBelow "sorted_images" (folderPath location) = Some levels
       ∧ (List.length levels < 4)%nat
       ∧ ∀ (imagePath : string) (w w1 : World),
           isName (filepath.Base imagePath) = true →
           os_MkdirAll "sorted_images/US/California/Alameda_County" ModePerm w
           = (None, w1) →
           (moveImage imagePath location w).2
           = [ EvMkdirAll "sorted_images/US/California/Alameda_County" ModePerm;
               EvRename imagePath
                 ("sorted_images/US/California/Alameda_County/"
                  ++ filepath.Base imagePath) ]).
Proof.
  assert (Hgen : ∀ (location : gmap string string)
            (segs1 segs2 segs3 segs4 : list string) (imagePath : string)
            (w w1 : World),
            sanitize (index location "country") = strings.Join segs1 "/" →
            sanitize (index location "state") = strings.Join segs2 "/" →
            sanitize (index location "state_district") = strings.Join segs3 "/" →
            sanitize (index location "county") = strings.Join segs4 "/" →
            segs1 ≠ [] → segs2 ≠ [] → segs3 ≠ [] → segs4 ≠ [] →
            forallb isNameOrEmpty (segs1 ++ segs2 ++ segs3 ++ segs4) = true →
            isName (filepath.Base imagePath) = true →
            os_MkdirAll (folderPath location) ModePerm w = (None, w1) →
            (moveImage imagePath location w).2
            = [ EvMkdirAll (folderPath location) ModePerm;
                EvRename imagePath
                  (folderPath location ++ "/" ++ filepath.Base imagePath) ]).
  { intros location segs1 segs2 segs3 segs4 imagePath w w1
      H1 H2 H3 H4 N1 N2 N3 N4 Hall Hbase Hmk.
    rewrite (moveImage_renames imagePath location w w1 Hmk). cbn [snd].
    destruct (newImagePath_segments imagePath location _ _ _ _
                H1 H2 H3 H4 N1 N2 N3 N4 Hall Hbase) as [-> _].
    reflexivity. }
  split; [|split; [|split]].
  - intros s i Hget. rewrite sanitize_get, Hget. reflexivity.
  - intros location segs1 segs2 segs3 segs4 H1 H2 H3 H4 N1 N2 N3 N4 Hall.
    split; [now apply folderPath_segments|].
    intros imagePath Hbase. split.
    + now apply newImagePath_segments.
    + intros w w1 Hmk.
      now apply (Hgen location segs1 segs2 segs3 segs4 imagePath w w1).
  - exists {[ "country" := "a/b"; "state" := "S"; "state_district" := "D";
              "county" := "C" ]}, ["a"; "b"; "S"; "D"; "C"].
    split; [reflexivity|]. split; [|split; [simpl; lia|]].
    + now apply (folderPath_segments _ ["a"; "b"] ["S"] ["D"] ["C"]).
    + intros imagePath w w1 Hbase Hmk.
      exact (Hgen {[ "country" := "a/b"; "state" := "S"; "state_district" := "D";
                     "county" := "C" ]} ["a"; "b"] ["S"] ["D"] ["C"] imagePath w w1
               eq_refl eq_refl eq_refl eq_refl
               ltac:(discriminate) ltac:(discriminate) ltac:(discriminate)
               ltac:(discriminate) eq_refl Hbase Hmk).
  - exists {[ "country" := "US"; "state" := "California"; "state_district" := "";
              "county" := "Alameda County" ]}, ["US"; "California"; "Alameda_County"].
    split; [reflexivity|]. split; [|split; [simpl; lia|]].
    + now apply (folderPath_segments _ ["US"] ["California"] [""] ["Alameda_County"]).
    + intros imagePath w w1 Hbase Hmk.
      exact (Hgen {[ "country" := "US"; "state" := "California";
                     "state_district" := ""; "county" := "Alameda County" ]}
               ["US"] ["California"] [""] ["Alameda_County"] imagePath w w1
               eq_refl eq_refl eq_refl eq_refl
               ltac:(discriminate) ltac:(discriminate) ltac:(discriminate)
               ltac:(discriminate) eq_refl Hbase Hmk).
Qed.

(** The theorem at a Place whose county holds a separator and whose
    state is empty: [images/trip.jpg] is placed four levels deep, at
    [sorted_images/New_Zealand/Otago/Dunedin/North_East/trip.jpg]. *)
Lemma separators_and_empty_fields_witness :
  levelsBelow "sorted_images"
    (folderPath {[ "country" := "New Zealand"; "state" := "";
                   "state_district" := "Otago"; "county" := "Dunedin/North East" ]})
  = Some ["New_Zealand"; "Otago"; "Dunedin"; "North_East"]
  ∧ (@moveImage Mock.sys "images/trip.jpg"
       {[ "country" := "New Zealand"; "state" := "";
          "state_district" := "Otago"; "county" := "Dunedin/North East" ]}
       Mock.fixture).2
    = [ EvMkdirAll "sorted_images/New_Zealand/Otago/Dunedin/North_East" 511;
        EvRename "images/trip.jpg"
          "sorted_images/New_Zealand/Otago/Dunedin/North_East/trip.jpg" ].
Proof.
  destruct (proj1 (proj2 (@separators_and_empty_fields_change_depth Mock.sys))
              {[ "country" := "New Zealand"; "state" := "";
                 "state_district" := "Otago"; "county" := "Dunedin/North East" ]}
              ["New_Zealand"] [""] ["Otago"] ["Dunedin"; "North_East"])
    as [Hlevels Hmove]; try reflexivity; try discriminate.
  split; [exact Hlevels|].
  destruct (Hmove "images/trip.jpg" eq_refl) as [_ Hcalls].
  exact (Hcalls Mock.fixture Mock.fixture eq_refl).
Defined.

(** ** The driver *)

Section Driver.

Context {sys : Sys}.

Lemma getGeoInfo_calls (imagePath : string) (w : World) :
  (getGeoInfo imagePath w).2 = [EvOpen imagePath]
  ∨ (getGeoInfo imagePath w).2 = [EvOpen imagePath; EvDecode; EvClose].
Proof.
  unfold getGeoInfo; run_monad.
  destruct (os_Open imagePath w) as [[file|err] w1]; run_monad; [|now left].
  destruct (exif_Decode file w1) as [[x|err] w2]; run_monad; [|now right].
  destruct (Exif_LatLong x) as [[lat lon]|err]; now right.
Qed.

Lemma getLocationDetails_calls (lat lon : float64) (w : World) :
  (getLocationDetails lat lon w).2 = [EvGet (geocodeURL lat lon)]
  ∨ (getLocationDetails lat lon w).2 = [EvGet (geocodeURL lat lon); EvBodyClose]
  ∨ (getLocationDetails lat lon w).2
    = [EvGet (geocodeURL lat lon); EvReadAll; EvBodyClose].
Proof.
  unfold getLocationDetails; run_monad.
  destruct (http_Get (geocodeURL lat lon) w) as [[resp|e] w1]; run_monad;
    [|now left].
  destruct (StatusCode resp =? StatusOK)%Z; run_monad; [|now right; left].
  right; right.
  destruct (io_ReadAll (Body resp) w1) as [[body|e] w2]; run_monad;
    [|reflexivity].
  destruct (json_Unmarshal body) as [data|e]; run_monad; [|reflexivity].
  destruct (data !! "address") as [[| | | | |address]|]; reflexivity.
Qed.

Lemma moveImage_calls (imagePath : string) (location : gmap string string) (w : World) :
  (moveImage imagePath location w).2
  = [EvMkdirAll (folderPath location) ModePerm]
  ∨ (moveImage imagePath location w).2
    = [ EvMkdirAll (folderPath location) ModePerm;
        EvRename imagePath (newImagePath imagePath location) ].
Proof.
  unfold moveImage; run_monad.
  destruct (os_MkdirAll (folderPath location) ModePerm w) as [[err|] w1];
    run_monad; [now left|].
  destruct (os_Rename imagePath (newImagePath imagePath location) w1).
  now right.
Qed.

(** The extractor neither contacts the geocoder nor moves anything; the
    geocoding client moves nothing. *)
Lemma getGeoInfo_quiet (imagePath : string) (w : World) :
  forallb (λ ev, negb (isGet ev) && negb (isMove ev)) (getGeoInfo imagePath w).2
  = true.
Proof. now destruct (getGeoInfo_calls imagePath w) as [->| ->]. Qed.

Lemma getLocationDetails_quiet (lat lon : float64) (w : World) :
  forallb (λ ev, negb (isMove ev) && negb (isOpen ev)) (getLocationDetails lat lon w).2
  = true.
Proof. now destruct (getLocationDetails_calls lat lon w) as [->|[->| ->]]. Qed.

(** The three ways the loop body goes for a candidate image. *)
Lemma loopBody_no_gps (directory : string) (file : DirEntry) (w w1 : World)
  (err : error) (evs : list Event) :
  isImage file = true →
  getGeoInfo (filepath.Join [directory; Name file]) w = (Err err, w1, evs) →
  loopBody directory file w
  = (tt, w1, evs ++ [EvStdout ("No GPS data found for " ++ Name file ++ LF)])%list.
Proof.
  intros Himg Hgeo. unfold loopBody. rewrite Himg. run_monad.
  now rewrite Hgeo.
Qed.

Lemma loopBody_no_location (directory : string) (file : DirEntry)
  (w w1 w2 : World) (lat lon : float64) (err : error) (evs1 evs2 : list Event) :
  isImage file = true →
  getGeoInfo (filepath.Join [directory; Name file]) w = (Ok (lat, lon), w1, evs1) →
  getLocationDetails lat lon w1 = (Err err, w2, evs2) →
  loopBody directory file w
  = (tt, w2,
     evs1 ++ evs2
     ++ [EvStdout ("Error getting location for " ++ Name file ++ ": "
                   ++ Error err ++ LF)])%list.
Proof.
  intros Himg Hgeo Hloc. unfold loopBody. rewrite Himg. run_monad.
  rewrite Hgeo. run_monad. now rewrite Hloc.
Qed.

Lemma loopBody_move (directory : string) (file : DirEntry)
  (w w1 w2 w3 : World) (lat lon : float64) (location : gmap string string)
  (r : option error) (evs1 evs2 evs3 : list Event) :
  isImage file = true →
  getGeoInfo (filepath.Join [directory; Name file]) w = (Ok (lat, lon), w1, evs1) →
  getLocationDetails lat lon w1 = (Ok location, w2, evs2) →
  moveImage (filepath.Join [directory; Name file]) location w2 = (r, w3, evs3) →
  loopBody directory file w
  = (tt, w3,
     evs1 ++ evs2
     ++ [EvStdout (movingLine (Name file) location)]
     ++ evs3
     ++ match r with
        | Some err => [EvStdout ("Error moving file: " ++ Error err ++ LF)]
        | None => []
        end)%list.
Proof.
  intros Himg Hgeo Hloc Hmove. unfold loopBody. rewrite Himg. run_monad.
  rewrite Hgeo. run_monad. rewrite Hloc. run_monad. rewrite Hmove.
  destruct r as [err|]; run_monad; [reflexivity|].
  now rewrite !app_nil_r.
Qed.

(** The loop goes on after every entry. *)
Lemma rangeFiles_cons (directory : string) (file : DirEntry)
  (rest : list DirEntry) (w : World) :
  rangeFiles directory (file :: rest) w
  = (tt,
     (rangeFiles directory rest (loopBody directory file w).1.2).1.2,
     (loopBody directory file w).2
     ++ (rangeFiles directory rest (loopBody directory file w).1.2).2)%list.
Proof.
  simpl rangeFiles. run_monad.
  destruct (loopBody directory file w) as [[[] w1] evs1]. run_monad.
  now destruct (rangeFiles directory rest w1) as [[[] w2] evs2].
Qed.

(** A candidate is opened once, whatever happens to it; other entries
    are not opened. *)
Lemma loopBody_opens (directory : string) (file : DirEntry) (w : World) :
  List.filter isOpen (loopBody directory file w).2
  = if isImage file then [EvOpen (filepath.Join [directory; Name file])] else [].
Proof.
  destruct (isImage file) eqn:Himg.
  2: { unfold loopBody. now rewrite Himg. }
  pose proof (getGeoInfo_calls (filepath.Join [directory; Name file]) w) as Hcalls.
  destruct (getGeoInfo (filepath.Join [directory; Name file]) w)
    as [[[[lat lon]|err] w1] evs1] eqn:Hgeo.
  2: { rewrite (loopBody_no_gps _ _ _ _ _ _ Himg Hgeo). cbn [snd] in *.
       rewrite List.filter_app. now destruct Hcalls as [->| ->]. }
  pose proof (getLocationDetails_calls lat lon w1) as Hcalls2.
  destruct (getLocationDetails lat lon w1) as [[[location|err] w2] evs2] eqn:Hloc.
  2: { rewrite (loopBody_no_location _ _ _ _ _ _ _ _ _ _ Himg Hgeo Hloc).
       cbn [snd] in *. rewrite !List.filter_app.
       destruct Hcalls as [->| ->]; now destruct Hcalls2 as [->|[->| ->]]. }
  pose proof (moveImage_calls (filepath.Join [directory; Name file]) location w2)
    as Hcalls3.
  destruct (moveImage (filepath.Join [directory; Name file]) location w2)
    as [[r w3] evs3] eqn:Hmove.
  rewrite (loopBody_move _ _ _ _ _ _ _ _ _ _ _ _ _ Himg Hgeo Hloc Hmove).
  cbn [snd] in *. rewrite !List.filter_app.
  destruct Hcalls as [->| ->]; destruct Hcalls2 as [->|[->| ->]];
    destruct Hcalls3 as [->| ->]; now destruct r.
Qed.

(** Every candidate of the listing is opened, in listing order. *)
Lemma rangeFiles_opens (directory : string) (files : list DirEntry) (w : World) :
  List.filter isOpen (rangeFiles directory files w).2
  = List.map (λ file, EvOpen (filepath.Join [directory; Name file]))
      (List.filter isImage files).
Proof.
  revert w; induction files as [|file rest IH]; intros w; [reflexivity|].
  rewrite rangeFiles_cons. cbn [snd]. rewrite List.filter_app, loopBody_opens, IH.
  simpl List.filter. now destruct (isImage file).
Qed.

(** A candidate is processed: the first call of the loop body is to open
    the file at [Join(directory, name)], and a line is printed for it. *)
Lemma loopBody_candidate (directory : string) (file : DirEntry) (w : World) :
  isImage file = true →
  ∃ rest : list Event,
    (loopBody directory file w).2
    = EvOpen (filepath.Join [directory; Name file]) :: rest
    ∧ ∃ line : string, In (EvStdout line) rest.
Proof.
  intros Himg.
  pose proof (getGeoInfo_calls (filepath.Join [directory; Name file]) w) as Hcalls.
  destruct (getGeoInfo (filepath.Join [directory; Name file]) w)
    as [[[[lat lon]|err] w1] evs1] eqn:Hgeo.
  2: { rewrite (loopBody_no_gps _ _ _ _ _ _ Himg Hgeo). cbn [snd] in *.
       destruct Hcalls as [->| ->]; eexists; (split; [reflexivity|]);
         eexists; rewrite ?in_app_iff; simpl; eauto 6. }
  destruct (getLocationDetails lat lon w1) as [[[location|err] w2] evs2] eqn:Hloc.
  2: { rewrite (loopBody_no_location _ _ _ _ _ _ _ _ _ _ Himg Hgeo Hloc).
       cbn [snd] in *.
       destruct Hcalls as [->| ->]; eexists; (split; [reflexivity|]);
         eexists; simpl; rewrite ?in_app_iff; simpl; eauto 8. }
  destruct (moveImage (filepath.Join [directory; Name file]) location w2)
    as [[r w3] evs3] eqn:Hmove.
  rewrite (loopBody_move _ _ _ _ _ _ _ _ _ _ _ _ _ Himg Hgeo Hloc Hmove).
  cbn [snd] in *.
  destruct Hcalls as [->| ->]; eexists; (split; [reflexivity|]);
    exists (movingLine (Name file) location); simpl;
    rewrite ?in_app_iff; simpl; eauto 8.
Qed.

(** The only file the loop body renames is the candidate itself. *)
Lemma loopBody_rename_source (directory : string) (file : DirEntry) (w : World)
  (oldpath newpath : string) :
  In (EvRename oldpath newpath) (loopBody directory file w).2 →
  isImage file = true ∧ oldpath = filepath.Join [directory; Name file].
Proof.
  destruct (isImage file) eqn:Himg.
  2: { unfold loopBody. rewrite Himg. intros []. }
  intros Hin. split; [reflexivity|]. revert Hin.
  pose proof (getGeoInfo_calls (filepath.Join [directory; Name file]) w) as Hcalls.
  destruct (getGeoInfo (filepath.Join [directory; Name file]) w)
    as [[[[lat lon]|err] w1] evs1] eqn:Hgeo.
  2: { rewrite (loopBody_no_gps _ _ _ _ _ _ Himg Hgeo). cbn [snd] in *.
       rewrite in_app_iff. destruct Hcalls as [->| ->]; simpl;
         intuition discriminate. }
  pose proof (getLocationDetails_calls lat lon w1) as Hcalls2.
  destruct (getLocationDetails lat lon w1) as [[[location|err] w2] evs2] eqn:Hloc.
  2: { rewrite (loopBody_no_location _ _ _ _ _ _ _ _ _ _ Himg Hgeo Hloc).
       cbn [snd] in *. rewrite !in_app_iff.
       destruct Hcalls as [->| ->]; destruct Hcalls2 as [->|[->| ->]]; simpl;
         intuition discriminate. }
  pose proof (moveImage_calls (filepath.Join [directory; Name file]) location w2)
    as Hcalls3.
  destruct (moveImage (filepath.Join [directory; Name file]) location w2)
    as [[r w3] evs3] eqn:Hmove.
  rewrite (loopBody_move _ _ _ _ _ _ _ _ _ _ _ _ _ Himg Hgeo Hloc Hmove).
  cbn [snd] in *. rewrite !in_app_iff.
  destruct Hcalls as [->| ->]; destruct Hcalls2 as [->|[->| ->]];
    destruct Hcalls3 as [->| ->]; destruct r; simpl;
    intuition (try discriminate); congruence.
Qed.

(** Every file the loop renames is a candidate of the listing. *)
Lemma rangeFiles_rename_sources (directory : string) (files : list DirEntry)
  (w : World) (oldpath newpath : string) :
  In (EvRename oldpath newpath) (rangeFiles directory files w).2 →
  ∃ file : DirEntry,
    In file files ∧ isImage file = true
    ∧ oldpath = filepath.Join [directory; Name file].
Proof.
  revert w; induction files as [|file rest IH]; intros w; [intros []|].
  rewrite rangeFiles_cons. cbn [snd]. rewrite in_app_iff. intros [Hin|Hin].
  - destruct (loopBody_rename_source _ _ _ _ _ Hin) as [Himg ->].
    exists file. split; [now left | now split].
  - destruct (IH _ Hin) as (f & Hf & Himg & ->).
    exists f. split; [now right | now split].
Qed.

(** The two ways [processImages] goes. *)
Lemma processImages_fails (directory : string) (w w1 : World) (err : error) :
  os_ReadDir directory w = (Err err, w1) →
  processImages directory w
  = (Exits 1, w1, [EvReadDir directory; EvFatal (Error err)]).
Proof. intros Hdir. unfold processImages; run_monad. now rewrite Hdir. Qed.

Lemma processImages_lists (directory : string) (w w1 : World) (files : list DirEntry) :
  os_ReadDir directory w = (Ok files, w1) →
  processImages directory w
  = (Returns, (rangeFiles directory files w1).1.2,
     EvReadDir directory :: (rangeFiles directory files w1).2).
Proof.
  intros Hdir. unfold processImages; run_monad. rewrite Hdir. run_monad.
  destruct (rangeFiles directory files w1) as [[[] w2] evs]. run_monad.
  now rewrite app_nil_r.
Qed.

End Driver.

(** C5. A directory entry is a candidate image exactly when it is not a
    directory and its name ends, byte for byte, in [.jpg], [.jpeg] or
    [.png]. The driver processes exactly the candidates: for a candidate
    the loop first opens the file at [Join(directory, name)] and prints
    a line for it, and the files a run opens are the candidates of the
    listing, in listing order. An entry that is not a candidate is
    skipped by the loop: no call is made for it, the world is left as it
    was, and every file the run renames is a candidate of the listing. A
    name that ends in an extension written with other letter case (such
    as [.JPG]) is not a candidate. *)
Theorem candidate_iff_lowercase_extension {sys : Sys} :
  (∀ file : DirEntry,
     isImage file = true ↔
     IsDir file = false
     ∧ ∃ stem ext, ext ∈ [".jpg"; ".jpeg"; ".png"] ∧ Name file = stem ++ ext)
  ∧ (∀ (file : DirEntry) (directory : string) (w : World),
       isImage file = true →
       ∃ rest : list Event,
         (loopBody directory file w).2
         = EvOpen (filepath.Join [directory; Name file]) :: rest
         ∧ ∃ line : string, In (EvStdout line) rest)
  ∧ (∀ (file : DirEntry) (directory : string) (w : World),
       In (EvOpen (filepath.Join [directory; Name file]))
          (loopBody directory file w).2
       ↔ IsDir file = false
         ∧ ∃ stem ext, ext ∈ [".jpg"; ".jpeg"; ".png"] ∧ Name file = stem ++ ext)
  ∧ (∀ (directory : string) (files : list DirEntry) (w w1 : World),
       os_ReadDir directory w = (Ok files, w1) →
       List.filter isOpen (processImages directory w).2
       = List.map (λ file, EvOpen (filepath.Join [directory; Name file]))
           (List.filter isImage files))
  ∧ (∀ (file : DirEntry) (directory : string) (w : World),
       isImage file = false → loopBody directory file w = (tt, w, []))
  ∧ (∀ (directory : string) (files : list DirEntry) (w : World)
       (oldpath newpath : string),
       In (EvRename oldpath newpath) (rangeFiles directory files w).2 →
       ∃ file : DirEntry,
         In file files ∧ isImage file = true
         ∧ oldpath = filepath.Join [directory; Name file])
  ∧ (∀ (stem ext variant : string) (dir : bool),
       ext ∈ [".jpg"; ".jpeg"; ".png"] → toLower variant = ext → variant ≠ ext →
       isImage {| Name := stem ++ variant; IsDir := dir |} = false)
  ∧ (∀ (stem : string) (dir : bool),
       isImage {| Name := stem ++ ".JPG"; IsDir := dir |} = false).
Proof.
  split; [apply isImage_iff|]. split; [|split; [|split; [|split; [|split; [|split]]]]].
  - intros file directory w Himg. now apply loopBody_candidate.
  - intros file directory w. rewrite <- isImage_iff. split.
    + destruct (isImage file) eqn:Himg; [reflexivity|].
      unfold loopBody. rewrite Himg. intros [].
    + intros Himg.
      destruct (loopBody_candidate directory file w Himg) as (rest & -> & _).
      now left.
  - intros directory files w w1 Hdir.
    rewrite (processImages_lists _ _ _ _ Hdir). cbn [snd].
    simpl List.filter. apply rangeFiles_opens.
  - intros file directory w Hno. unfold loopBody. now rewrite Hno.
  - apply rangeFiles_rename_sources.
  - intros stem ext variant dir Hext Hlow Hne.
    now apply (case_variant_not_image stem ext).
  - intros stem dir.
    apply (case_variant_not_image stem ".jpg"); [set_solver | reflexivity | discriminate].
Qed.

(** The theorem at the entries of the fixture directory: [trip.jpg] is a
    candidate and is opened at [images/trip.jpg], [SHOUT.JPG] is skipped
    without a call, and the run over the listing opens its candidates. *)
Lemma candidate_witness :
  isImage {| Name := "trip.jpg"; IsDir := false |} = true
  ∧ In (EvOpen "images/trip.jpg")
       (@loopBody Mock.sys "images" {| Name := "trip.jpg"; IsDir := false |}
          Mock.fixture).2
  ∧ isImage {| Name := "SHOUT.JPG"; IsDir := false |} = false
  ∧ @loopBody Mock.sys "images" {| Name := "SHOUT.JPG"; IsDir := false |} Mock.fixture
    = (tt, Mock.fixture, []).
Proof.
  destruct (@candidate_iff_lowercase_extension Mock.sys)
    as (Hiff & Hcand & Hopen & Hrun & Hskip & Hren & Hcase & Hupper).
  split; [|split; [|split]].
  - apply Hiff. split; [reflexivity|].
    exists "trip", ".jpg". split; [rewrite elem_of_cons; now left | reflexivity].
  - apply (Hopen {| Name := "trip.jpg"; IsDir := false |} "images" Mock.fixture).
    split; [reflexivity|].
    exists "trip", ".jpg". split; [rewrite elem_of_cons; now left | reflexivity].
  - exact (Hupper "SHOUT" false).
  - apply Hskip. exact (Hupper "SHOUT" false).
Defined.

(** C4. For a candidate file, in listing order: when the EXIF extraction
    fails the driver prints [No GPS data found for <name>] and goes on,
    without a request to the geocoder and without moving anything; when
    geocoding fails it prints [Error getting location for <name>: <err>]
    and goes on without moving; otherwise it prints
    [Moving <name> to <country>/<state>/<state_district>/<county>], with
    the values of the Place as they are, before the mover is called, and
    when the move fails it prints [Error moving file: <err>]. Whatever
    happens to a file, the loop goes on with the rest of the listing, and
    every candidate of the listing is opened, in order. *)
Theorem driver_reports_and_continues {sys : Sys} (directory : string) :
  (∀ (file : DirEntry) (w : World),
     isImage file = true →
     (∀ (err : error) (w1 : World) (evs : list Event),
        getGeoInfo (filepath.Join [directory; Name file]) w = (Err err, w1, evs) →
        loopBody directory file w
        = (tt, w1,
           evs ++ [EvStdout ("No GPS data found for " ++ Name file ++ LF)])%list
        ∧ forallb (λ ev, negb (isGet ev) && negb (isMove ev))
            (loopBody directory file w).2 = true)
     ∧ (∀ (lat lon : float64) (w1 w2 : World) (err : error) (evs1 evs2 : list Event),
          getGeoInfo (filepath.Join [directory; Name file]) w
          = (Ok (lat, lon), w1, evs1) →
          getLocationDetails lat lon w1 = (Err err, w2, evs2) →
          loopBody directory file w
          = (tt, w2,
             evs1 ++ evs2
             ++ [EvStdout ("Error getting location for " ++ Name file ++ ": "
                           ++ Error err ++ LF)])%list
          ∧ forallb (λ ev, negb (isMove ev)) (loopBody directory file w).2 = true)
     ∧ (∀ (lat lon : float64) (w1 w2 w3 : World) (location : gmap string string)
          (r : option error) (evs1 evs2 evs3 : list Event),
          getGeoInfo (filepath.Join [directory; Name file]) w
          = (Ok (lat, lon), w1, evs1) →
          getLocationDetails lat lon w1 = (Ok location, w2, evs2) →
          moveImage (filepath.Join [directory; Name file]) location w2
          = (r, w3, evs3) →
          loopBody directory file w
          = (tt, w3,
             evs1 ++ evs2
             ++ [EvStdout ("Moving " ++ Name file ++ " to "
                           ++ index location "country" ++ "/"
                           ++ index location "state" ++ "/"
                           ++ index location "state_district" ++ "/"
                           ++ index location "county" ++ LF)]
             ++ evs3
             ++ match r with
                | Some err => [EvStdout ("Error moving file: " ++ Error err ++ LF)]
                | None => []
                end)%list
          ∧ forallb (λ ev, negb (isMove ev)) (evs1 ++ evs2) = true))
  ∧ (∀ (file : DirEntry) (rest : list DirEntry) (w : World),
       rangeFiles directory (file :: rest) w
       = (tt,
          (rangeFiles directory rest (loopBody directory file w).1.2).1.2,
          (loopBody directory file w).2
          ++ (rangeFiles directory rest (loopBody directory file w).1.2).2)%list)
  ∧ (∀ (files : list DirEntry) (w : World),
       List.filter isOpen (rangeFiles directory files w).2
       = List.map (λ file, EvOpen (filepath.Join [directory; Name file]))
           (List.filter isImage files)).
Proof.
  split; [|split; [apply rangeFiles_cons | apply rangeFiles_opens]].
  intros file w Himg. split; [|split].
  - intros err w1 evs Hgeo.
    rewrite (loopBody_no_gps _ _ _ _ _ _ Himg Hgeo). split; [reflexivity|].
    cbn [snd]. rewrite forallb_app.
    pose proof (getGeoInfo_quiet (filepath.Join [directory; Name file]) w) as Hq.
    rewrite Hgeo in Hq. cbn [snd] in Hq. now rewrite Hq.
  - intros lat lon w1 w2 err evs1 evs2 Hgeo Hloc.
    rewrite (loopBody_no_location _ _ _ _ _ _ _ _ _ _ Himg Hgeo Hloc).
    split; [reflexivity|]. cbn [snd].
    pose proof (getGeoInfo_quiet (filepath.Join [directory; Name file]) w) as Hq1.
    pose proof (getLocationDetails_quiet lat lon w1) as Hq2.
    rewrite Hgeo in Hq1. rewrite Hloc in Hq2. cbn [snd] in Hq1, Hq2.
    rewrite forallb_forall in Hq1, Hq2.
    apply forallb_forall. intros ev Hev. rewrite !in_app_iff in Hev.
    destruct Hev as [Hev|[Hev|[<-|[]]]]; [| |reflexivity].
    + specialize (Hq1 ev Hev). now apply andb_true_iff in Hq1 as [_ ?].
    + specialize (Hq2 ev Hev). now apply andb_true_iff in Hq2 as [? _].
  - intros lat lon w1 w2 w3 location r evs1 evs2 evs3 Hgeo Hloc Hmove.
    rewrite (loopBody_move _ _ _ _ _ _ _ _ _ _ _ _ _ Himg Hgeo Hloc Hmove).
    split.
    + reflexivity.
    + rewrite forallb_app.
      pose proof (getGeoInfo_quiet (filepath.Join [directory; Name file]) w) as Hq1.
      pose proof (getLocationDetails_quiet lat lon w1) as Hq2.
      rewrite Hgeo in Hq1. rewrite Hloc in Hq2. cbn [snd] in Hq1, Hq2.
      rewrite forallb_forall in Hq1, Hq2.
      rewrite andb_true_iff. split.
      * apply forallb_forall. intros ev Hev.
        specialize (Hq1 ev Hev). now apply andb_true_iff in Hq1 as [_ ?].
      * apply forallb_forall. intros ev Hev.
        specialize (Hq2 ev Hev). now apply andb_true_iff in Hq2 as [? _].
Qed.

(** The theorem in the test double: the image without GPS tag, the image
    whose position the geocoder refuses with a status 503, and the image
    of San Francisco when no directory can be created. *)
Lemma driver_reports_witness :
  (@loopBody Mock.sys "images" {| Name := "nogps.png"; IsDir := false |} Mock.fixture).2
  = [ EvOpen "images/nogps.png"; EvDecode; EvClose;
      EvStdout ("No GPS data found for nogps.png" ++ LF) ]
  ∧ (@loopBody Mock.sys "images" {| Name := "broken.jpg"; IsDir := false |} Mock.fixture).2
    = [ EvOpen "images/broken.jpg"; EvDecode; EvClose;
        EvGet (Mock.url Mock.F51_5 Mock.Fm0_12); EvBodyClose;
        EvStdout ("Error getting location for broken.jpg: API error: 503" ++ LF) ]
  ∧ (@loopBody Mock.sys "images" {| Name := "trip.jpg"; IsDir := false |}
       Mock.readOnlyFixture).2
    = [ EvOpen "images/trip.jpg"; EvDecode; EvClose;
        EvGet (Mock.url Mock.F37_7749 Mock.Fm122_4194); EvReadAll; EvBodyClose;
        EvStdout ("Moving trip.jpg to United States/California/Unknown/San Francisco County"
                  ++ LF);
        EvMkdirAll "sorted_images/United_States/California/Unknown/San_Francisco_County" 511;
        EvStdout ("Error moving file: mkdir sorted_images/United_States/California/Unknown/San_Francisco_County: read-only file system"
                  ++ LF) ].
Proof.
  pose proof (@driver_reports_and_continues Mock.sys "images") as [Hbody _].
  split; [|split].
  - destruct (Hbody {| Name := "nogps.png"; IsDir := false |} Mock.fixture eq_refl)
      as (Hgps & _ & _).
    destruct (Hgps (NewError "exif: tag GPSLatitude is not present") Mock.fixture
                [EvOpen "images/nogps.png"; EvDecode; EvClose] eq_refl) as [-> _].
    reflexivity.
  - destruct (Hbody {| Name := "broken.jpg"; IsDir := false |} Mock.fixture eq_refl)
      as (_ & Hloc & _).
    destruct (Hloc Mock.F51_5 Mock.Fm0_12 Mock.fixture Mock.fixture
                (NewError "API error: 503")
                [EvOpen "images/broken.jpg"; EvDecode; EvClose]
                [EvGet (Mock.url Mock.F51_5 Mock.Fm0_12); EvBodyClose]
                eq_refl eq_refl) as [-> _].
    reflexivity.
  - destruct (Hbody {| Name := "trip.jpg"; IsDir := false |} Mock.readOnlyFixture eq_refl)
      as (_ & _ & Hmove).
    destruct (Hmove Mock.F37_7749 Mock.Fm122_4194
                Mock.readOnlyFixture Mock.readOnlyFixture Mock.readOnlyFixture
                (@placeOf Mock.sys
                   {[ "country" := JString "United States";
                      "state" := JString "California";
                      "county" := JString "San Francisco County" ]})
                (Some (NewError "mkdir sorted_images/United_States/California/Unknown/San_Francisco_County: read-only file system"))
                [EvOpen "images/trip.jpg"; EvDecode; EvClose]
                [EvGet (Mock.url Mock.F37_7749 Mock.Fm122_4194); EvReadAll; EvBodyClose]
                [EvMkdirAll "sorted_images/United_States/California/Unknown/San_Francisco_County" 511]
                eq_refl eq_refl eq_refl) as [-> _].
    reflexivity.
Defined.

(** * Further properties of the code *)

(** ** [Clean] on a rooted path *)

Section CleanRooted.

Import filepath.

Lemma leadSep_cons (out : string) :
  leadSep out = true → ∃ o, out = String Separator o.
Proof.
  destruct out as [|c o]; [discriminate|]. simpl. unfold IsPathSeparator.
  intros H. apply Ascii.eqb_eq in H. subst c. now exists o.
Qed.

Lemma leadSep_append (out e : string) :
  leadSep out = true → leadSep (out ++ e) = true.
Proof. destruct out; [discriminate | now intros]. Qed.

(** The backward scan of the [..] case does not pass the leading
    separator. *)
Lemma retreat_rooted (buf : string) (w : nat) :
  1 <= w → 1 <= retreat buf 1 w.
Proof.
  induction w as [|w IH]; intros Hw; [lia|]. simpl retreat.
  destruct w as [|w]; [simpl; lia|].
  destruct (_ && _); [apply IH; lia | lia].
Qed.

Lemma leadSep_substring (out : string) (w : nat) :
  leadSep out = true → 1 <= w → leadSep (String.substring 0 w out) = true.
Proof.
  destruct out as [|c o]; [discriminate|]. destruct w; [lia|]. now intros.
Qed.

(** Reading a prefix of a rooted path up to the end of an element leaves
    the loop with a buffer that still begins with the separator. *)
Lemma cleanLoop_prefix_rooted (n : nat) :
  ∀ (x rest out : string),
    String.length x <= n → atElemEnd rest = true → leadSep out = true →
    ∃ out' : string,
      leadSep out' = true
      ∧ cleanLoop true (x ++ rest) out 1 = cleanLoop true rest out' 1.
Proof.
  induction n as [|n IH]; intros x rest out Hlen Hrest Hout.
  - destruct x; [|simpl in Hlen; lia]. now exists out.
  - destruct x as [|c x]; [now exists out|].
    simpl in Hlen. rewrite append_cons, cleanLoop_cons.
    destruct (IsPathSeparator c) eqn:Hc; [apply IH; [lia | auto ..]|].
    destruct (isDot c && atElemEnd (x ++ rest)); [apply IH; [lia | auto ..]|].
    cbv zeta.
    assert (Hfirst : leadSep (append (if needSep true out
                                      then append out Separator else out) c) = true).
    { unfold append. destruct (needSep true out);
        rewrite ?append_assoc; now apply leadSep_append. }
    assert (Helem : ∃ out' : string,
               leadSep out' = true
               ∧ copyElement (λ p o, cleanLoop true p o 1) (x ++ rest)
                   (append (if needSep true out
                            then append out Separator else out) c)
                 = cleanLoop true rest out' 1).
    { destruct (copyElement_split (λ p o, cleanLoop true p o 1) x rest
                  (append (if needSep true out
                           then append out Separator else out) c) Hrest)
        as (e & x2 & Hlen2 & ->).
      apply IH; [lia | exact Hrest | now apply leadSep_append]. }
    destruct x as [|c2 x].
    + rewrite append_nil_l in *. destruct rest as [|c2 rest2]; [exact Helem|].
      simpl in Hrest. unfold isDot at 2.
      replace (Ascii.eqb c2 ".") with false; [now rewrite andb_false_r|].
      symmetry. apply Ascii.eqb_neq. intros ->. discriminate.
    + rewrite append_cons in *. simpl in Hlen.
      destruct (isDot c && isDot c2 && atElemEnd (x ++ rest)); [|exact Helem].
      destruct (1 <? String.length out)%nat eqn:Hlt.
      * apply IH; [lia | exact Hrest |].
        apply leadSep_substring; [exact Hout|].
        apply retreat_rooted. apply Nat.ltb_lt in Hlt. lia.
      * simpl negb. cbv iota. apply IH; [lia | exact Hrest | exact Hout].
Qed.

(** After any directory, a name is the last element of the joined path. *)
Lemma Join_ends_with_name (dir base : string) :
  isName base = true →
  ∃ pre : string,
    filepath.Join [dir; base] = pre ++ base
    ∧ (pre = "" ∨ ∃ pre', pre = pre' ++ String Separator "").
Proof.
  intros Hbase. destruct dir as [|c dir].
  - exists "". split; [|now left].
    change (filepath.Join [""; base]) with (filepath.Join [base]).
    now rewrite (Join_elements base [] Hbase eq_refl).
  - rewrite Join_nonEmpty_first by discriminate.
    change (strings.Join [String c dir; base] (String Separator ""))
      with (String c dir ++ String Separator "" ++ base).
    rewrite (append_cons Separator), append_nil_l.
    destruct (IsPathSeparator c) eqn:Hc.
    + rewrite append_cons. unfold Clean. rewrite Hc.
      destruct (cleanLoop_prefix_rooted _ dir (String Separator base)
                  (String Separator "") (le_n _) eq_refl eq_refl)
        as (out' & Hout' & ->).
      rewrite cleanLoop_sep.
      assert (Hb : cleanLoop true base out' 1 = withElement true out' base).
      { rewrite <- (append_nil_r base) at 1.
        now rewrite (cleanLoop_name true base "" out' 1 Hbase eq_refl). }
      rewrite Hb. unfold withElement.
      destruct (leadSep_cons out' Hout') as [o ->].
      destruct (name_not_dot_first base Hbase) as (b & f & -> & _).
      unfold needSep. cbn [andb negb orb].
      destruct o as [|o1 o]; simpl.
      * exists (String Separator ""). split; [reflexivity|]. right. now exists "".
      * exists (append (String Separator (String o1 o)) Separator).
        split; [reflexivity|]. right. now exists (String Separator (String o1 o)).
    + apply Clean_ends_with_name; [discriminate | simpl; now rewrite Hc | exact Hbase].
Qed.

End CleanRooted.

(** ** The path of the image and the destination *)

Section ImagePath.

Import filepath.

(** The path the driver builds for an entry and the path the mover
    builds from it both end in the name of the entry. *)
Lemma base_of_image_path (directory name : string) :
  isName name = true → Base (filepath.Join [directory; name]) = name.
Proof.
  intros Hname.
  destruct (Join_ends_with_name directory name Hname) as (pre & -> & Hpre).
  now apply Base_of_name.
Qed.

Lemma retreat_noSep (buf : string) (w : nat) :
  noSep buf = true → w < String.length buf → retreat buf 0 w = 0.
Proof.
  intros Hbuf. induction w as [|w IH]; intros Hw; [reflexivity|].
  simpl retreat. destruct (get_Some_lt buf (S w) Hw) as [c Hc].
  rewrite Hc. simpl default. rewrite (noSep_get buf (S w) c Hbuf Hc).
  simpl. apply IH. lia.
Qed.

(** A [..] element after a single name takes the name back. *)
Lemma cleanLoop_dotdot_after_name (out rest : string) :
  noSep out = true → out ≠ "" → atElemEnd rest = true →
  cleanLoop false (".." ++ rest) out 0 = cleanLoop false rest "" 0.
Proof.
  intros Hout Hne Hrest.
  change (".." ++ rest) with (String "." (String "." rest)).
  rewrite cleanLoop_cons.
  change (IsPathSeparator ".") with false.
  change (isDot "." && atElemEnd (String "." rest)) with false.
  change (isDot ".") with true. cbv iota zeta. rewrite Hrest. cbn [andb].
  destruct out as [|c out]; [contradiction|].
  change (0 <? String.length (String c out))%nat with true. cbv iota.
  rewrite (retreat_noSep (String c out)); [reflexivity | exact Hout | simpl; lia].
Qed.

Lemma Clean_relative (c : ascii) (path : string) :
  IsPathSeparator c = false →
  Clean (String c path)
  = if (String.length (cleanLoop false (String c path) "" 0) =? 0)%nat
    then "." else cleanLoop false (String c path) "" 0.
Proof. intros Hc. unfold Clean. now rewrite Hc. Qed.

Lemma folderPath_dotdot (location : gmap string string) :
  index location "country" = ".." →
  isName (index location "state") = true →
  isName (index location "state_district") = true →
  isName (index location "county") = true →
  folderPath location
  = sanitize (index location "state") ++ "/"
    ++ sanitize (index location "state_district") ++ "/"
    ++ sanitize (index location "county").
Proof.
  intros Hc H2 H3 H4. rewrite <- isName_sanitize in H2, H3, H4.
  unfold folderPath. rewrite Hc. change (sanitize "..") with "..".
  rewrite Join_nonEmpty_first by discriminate.
  change (strings.Join
            [ "sorted_images"; "..";
              sanitize (index location "state");
              sanitize (index location "state_district");
              sanitize (index location "county") ] (String Separator ""))
    with (String "s"
            ("orted_images"
             ++ String Separator
                  (".." ++ String Separator
                     (strings.Join
                        [ sanitize (index location "state");
                          sanitize (index location "state_district");
                          sanitize (index location "county") ]
                        (String Separator ""))))).
  rewrite Clean_relative by reflexivity.
  rewrite <- (append_cons "s" "orted_images").
  rewrite (cleanLoop_name false "sorted_images" _ "" 0) by reflexivity.
  rewrite cleanLoop_sep.
  rewrite cleanLoop_dotdot_after_name by (discriminate || reflexivity).
  rewrite cleanLoop_sep, cleanLoop_elements.
  2: { simpl. unfold isNameOrEmpty. rewrite H2, H3, H4. now rewrite !orb_true_r. }
  unfold names; simpl List.filter. rewrite !isName_nonEmpty by assumption.
  simpl fold_left. change (withElement false "" ?x) with ("" ++ x).
  rewrite append_nil_l.
  destruct (name_not_dot_first _ H2) as (c & f & Hs & _).
  rewrite !withElement_nonEmpty.
  - rewrite Hs. rewrite !append_assoc. reflexivity.
  - rewrite Hs. discriminate.
  - rewrite Hs. discriminate.
Qed.

End ImagePath.

(** ** The calls of a run *)

Section Calls.

Context {sys : Sys}.

Lemma countOf_app (kind : Event → bool) (evs1 evs2 : list Event) :
  countOf kind (evs1 ++ evs2) = countOf kind evs1 + countOf kind evs2.
Proof. unfold countOf. now rewrite List.filter_app, List.length_app. Qed.

(** The extractor, path by path. *)
Lemma getGeoInfo_open_fails (imagePath : string) (w w1 : World) (err : error) :
  os_Open imagePath w = (Err err, w1) →
  getGeoInfo imagePath w = (Err err, w1, [EvOpen imagePath]).
Proof. intros Hopen. unfold getGeoInfo; run_monad. now rewrite Hopen. Qed.

Lemma getGeoInfo_opened (imagePath : string) (w w1 w2 : World) (file : File)
  (r : result Exif) :
  os_Open imagePath w = (Ok file, w1) →
  exif_Decode file w1 = (r, w2) →
  getGeoInfo imagePath w
  = (match r with
     | Ok x => Exif_LatLong x
     | Err err => Err err
     end,
     File_Close file w2, [EvOpen imagePath; EvDecode; EvClose]).
Proof.
  intros Hopen Hdecode. unfold getGeoInfo; run_monad. rewrite Hopen. run_monad.
  rewrite Hdecode. destruct r as [x|err]; run_monad; [|reflexivity].
  now destruct (Exif_LatLong x) as [[lat lon]|err].
Qed.

Lemma getGeoInfo_Ok_calls (imagePath : string) (w w1 : World)
  (coords : float64 * float64) (evs : list Event) :
  getGeoInfo imagePath w = (Ok coords, w1, evs) →
  evs = [EvOpen imagePath; EvDecode; EvClose].
Proof.
  destruct (os_Open imagePath w) as [[file|err] w0] eqn:Hopen.
  - destruct (exif_Decode file w0) as [r w2] eqn:Hdecode.
    rewrite (getGeoInfo_opened _ _ _ _ _ _ Hopen Hdecode). now intros [= _ _ <-].
  - rewrite (getGeoInfo_open_fails _ _ _ _ Hopen). discriminate.
Qed.

(** The client, by what [http.Get] returns. *)
Lemma getLocationDetails_no_response (lat lon : float64) (w w1 : World) (err : error) :
  http_Get (geocodeURL lat lon) w = (Err err, w1) →
  getLocationDetails lat lon w = (Err err, w1, [EvGet (geocodeURL lat lon)]).
Proof. intros Hget. unfold getLocationDetails; run_monad. now rewrite Hget. Qed.

Lemma getLocationDetails_not_OK (lat lon : float64) (w w1 : World)
  (resp : Response ReadCloser) :
  http_Get (geocodeURL lat lon) w = (Ok resp, w1) →
  StatusCode resp ≠ 200%Z →
  getLocationDetails lat lon w
  = (Err (NewError ("API error: " ++ fmt.FormatInt (StatusCode resp))),
     Body_Close (Body resp) w1,
     [EvGet (geocodeURL lat lon); EvBodyClose]).
Proof.
  intros Hget Hcode. unfold getLocationDetails; run_monad. rewrite Hget. run_monad.
  apply Z.eqb_neq in Hcode. unfold StatusOK. now rewrite Hcode.
Qed.

Lemma getLocationDetails_OK (lat lon : float64) (w w1 w2 : World)
  (resp : Response ReadCloser) (r : result string) :
  http_Get (geocodeURL lat lon) w = (Ok resp, w1) →
  StatusCode resp = 200%Z →
  io_ReadAll (Body resp) w1 = (r, w2) →
  (getLocationDetails lat lon w).1.2 = Body_Close (Body resp) w2
  ∧ (getLocationDetails lat lon w).2
    = [EvGet (geocodeURL lat lon); EvReadAll; EvBodyClose].
Proof.
  intros Hget Hcode Hread. unfold getLocationDetails; run_monad. rewrite Hget.
  run_monad. apply Z.eqb_eq in Hcode. unfold StatusOK. rewrite Hcode. run_monad.
  rewrite Hread. destruct r as [body|err]; run_monad; [|now split].
  destruct (json_Unmarshal body) as [data|err]; run_monad; [|now split].
  destruct (data !! "address") as [[| | | | |address]|]; now split.
Qed.

Lemma getLocationDetails_Ok_calls (lat lon : float64) (w w1 : World)
  (location : gmap string string) (evs : list Event) :
  getLocationDetails lat lon w = (Ok location, w1, evs) →
  evs = [EvGet (geocodeURL lat lon); EvReadAll; EvBodyClose].
Proof.
  intros Hloc.
  destruct (http_Get (geocodeURL lat lon) w) as [[resp|err] w0] eqn:Hget.
  - destruct (Z.eq_dec (StatusCode resp) 200) as [Hcode|Hcode].
    + destruct (io_ReadAll (Body resp) w0) as [r w2] eqn:Hread.
      destruct (getLocationDetails_OK _ _ _ _ _ _ _ Hget Hcode Hread) as [_ Hcalls].
      now rewrite Hloc in Hcalls.
    + rewrite (getLocationDetails_not_OK _ _ _ _ _ Hget Hcode) in Hloc. discriminate.
  - rewrite (getLocationDetails_no_response _ _ _ _ _ Hget) in Hloc. discriminate.
Qed.

Lemma AnswersWith_result (lat lon : float64) (w : World)
  (address : gmap string (Value float64)) :
  AnswersWith lat lon w address →
  (getLocationDetails lat lon w).1.1 = Ok (placeOf address).
Proof.
  intros Ha.
  destruct (getLocationDetails_cases lat lon w)
    as [[(e & Hr & Hf)|(address' & Hr & Ha')] _].
  - destruct (FailsWith_AnswersWith _ _ _ _ _ Hf Ha).
  - rewrite Hr. do 2 f_equal.
    destruct Ha as [resp w1 body w2 data address Hget Hcode Hread Hjson Haddr].
    destruct Ha' as [resp' w1' body' w2' data' address' Hget' Hcode' Hread' Hjson' Haddr'].
    rewrite Hget in Hget'; injection Hget' as <- <-.
    rewrite Hread in Hread'; injection Hread' as <- <-.
    rewrite Hjson in Hjson'; injection Hjson' as <-.
    rewrite Haddr in Haddr'. now injection Haddr'.
Qed.

(** The calls of one turn of the loop, counted by kind. *)
Lemma loopBody_counts (directory : string) (file : DirEntry) (w : World) :
  let evs := (loopBody directory file w).2 in
  let candidate := if isImage file then 1 else 0 in
  countOf isOpen evs = candidate
  ∧ countOf isRename evs <= countOf isMkdirAll evs
  ∧ countOf isMkdirAll evs <= countOf isGet evs
  ∧ countOf isGet evs <= countOf isDecode evs
  ∧ countOf isDecode evs <= countOf isOpen evs
  ∧ countOf isClose evs = countOf isDecode evs
  ∧ countOf isBodyClose evs <= countOf isGet evs
  ∧ countOf isReadAll evs <= countOf isBodyClose evs
  ∧ candidate <= countOf isStdout evs
  ∧ countOf isStdout evs <= candidate + countOf isMkdirAll evs
  ∧ countOf isReadDir evs = 0
  ∧ countOf isFatal evs = 0.
Proof.
  cbv zeta. destruct (isImage file) eqn:Himg.
  2: { unfold loopBody. rewrite Himg. cbn. lia. }
  pose proof (getGeoInfo_calls (filepath.Join [directory; Name file]) w) as Hcalls.
  destruct (getGeoInfo (filepath.Join [directory; Name file]) w)
    as [[[[lat lon]|err] w1] evs1] eqn:Hgeo.
  2: { rewrite (loopBody_no_gps _ _ _ _ _ _ Himg Hgeo). cbn [snd] in *.
       rewrite !countOf_app. destruct Hcalls as [->| ->]; cbn; lia. }
  apply getGeoInfo_Ok_calls in Hgeo as Hshape. subst evs1.
  pose proof (getLocationDetails_calls lat lon w1) as Hcalls2.
  destruct (getLocationDetails lat lon w1) as [[[location|err] w2] evs2] eqn:Hloc.
  2: { rewrite (loopBody_no_location _ _ _ _ _ _ _ _ _ _ Himg Hgeo Hloc).
       cbn [snd] in *. rewrite !countOf_app.
       destruct Hcalls2 as [->|[->| ->]]; cbn; lia. }
  apply getLocationDetails_Ok_calls in Hloc as Hshape. subst evs2.
  pose proof (moveImage_calls (filepath.Join [directory; Name file]) location w2)
    as Hcalls3.
  destruct (moveImage (filepath.Join [directory; Name file]) location w2)
    as [[r w3] evs3] eqn:Hmove.
  rewrite (loopBody_move _ _ _ _ _ _ _ _ _ _ _ _ _ Himg Hgeo Hloc Hmove).
  cbn [snd] in *. rewrite !countOf_app.
  destruct Hcalls3 as [->| ->]; destruct r; cbn; lia.
Qed.

Lemma rangeFiles_counts (directory : string) (files : list DirEntry) (w : World) :
  let evs := (rangeFiles directory files w).2 in
  let candidates := List.length (List.filter isImage files) in
  countOf isOpen evs = candidates
  ∧ countOf isRename evs <= countOf isMkdirAll evs
  ∧ countOf isMkdirAll evs <= countOf isGet evs
  ∧ countOf isGet evs <= countOf isDecode evs
  ∧ countOf isDecode evs <= countOf isOpen evs
  ∧ countOf isClose evs = countOf isDecode evs
  ∧ countOf isBodyClose evs <= countOf isGet evs
  ∧ countOf isReadAll evs <= countOf isBodyClose evs
  ∧ candidates <= countOf isStdout evs
  ∧ countOf isStdout evs <= candidates + countOf isMkdirAll evs
  ∧ countOf isReadDir evs = 0
  ∧ countOf isFatal evs = 0.
Proof.
  cbv zeta. revert w; induction files as [|file rest IH]; intros w.
  - cbn. lia.
  - rewrite rangeFiles_cons. cbn [snd]. rewrite !countOf_app.
    pose proof (loopBody_counts directory file w) as Hb. cbv zeta in Hb.
    specialize (IH (loopBody directory file w).1.2).
    simpl List.filter. destruct (isImage file); simpl List.length; lia.
Qed.

(** Without a candidate the loop does nothing. *)
Lemma rangeFiles_no_candidate (directory : string) (files : list DirEntry) (w : World) :
  List.filter isImage files = [] → rangeFiles directory files w = (tt, w, []).
Proof.
  revert w; induction files as [|file rest IH]; intros w Hnone; [reflexivity|].
  simpl in Hnone. destruct (isImage file) eqn:Himg; [discriminate|].
  rewrite rangeFiles_cons. unfold loopBody at 1 2 3. rewrite Himg.
  change ((ret tt w).1.2) with w. change ((ret tt w).2) with (@nil Event).
  now rewrite (IH w Hnone).
Qed.

Lemma index_placeOf_key (address : gmap string (Value float64)) (key : string) :
  key ∈ placeKeys → index (placeOf address) key = getString address key.
Proof. intros H. unfold index. now rewrite placeOf_lookup. Qed.

End Calls.

(** ** The bytes of a cleaned path *)

Section CleanBytes.

Import filepath.

Variable test : ascii → bool.
Hypothesis test_sep : test Separator = true.
Hypothesis test_dot : test "."%char = true.

Lemma allBytes_append (s t : string) :
  allBytes test (s ++ t) = allBytes test s && allBytes test t.
Proof.
  induction s as [|c s IH]; [reflexivity|].
  rewrite append_cons; simpl. now rewrite IH, andb_assoc.
Qed.

Lemma allBytes_substring (s : string) (n m : nat) :
  allBytes test s = true → allBytes test (String.substring n m s) = true.
Proof.
  revert n m; induction s as [|c s IH]; intros n m Hs.
  - now destruct n, m.
  - simpl in Hs. apply andb_true_iff in Hs as [Hc Hs].
    destruct n as [|n]; [destruct m as [|m]|]; simpl; auto.
    now rewrite Hc, IH.
Qed.

Lemma allBytes_push (out : string) (c : ascii) :
  allBytes test out = true → test c = true →
  allBytes test (append out c) = true.
Proof.
  intros Hout Hc. unfold append. rewrite allBytes_append, Hout. simpl.
  now rewrite Hc.
Qed.

Lemma copyElement_allBytes (continue : string → string → string) (path : string) :
  (∀ p o, String.length p <= String.length path →
          allBytes test p = true → allBytes test o = true →
          allBytes test (continue p o) = true) →
  ∀ out, allBytes test path = true → allBytes test out = true →
         allBytes test (copyElement continue path out) = true.
Proof.
  induction path as [|c path IH]; intros Hk out Hpath Hout; simpl.
  - now apply Hk.
  - destruct (IsPathSeparator c); [now apply Hk|].
    simpl in Hpath. apply andb_true_iff in Hpath as [Hc Hpath].
    apply IH; [|exact Hpath | now apply allBytes_push].
    intros p o Hlen. apply Hk. simpl. lia.
Qed.

(** [Clean] writes only bytes of its argument, separators and dots. *)
Lemma cleanLoop_allBytes (n : nat) :
  ∀ (rooted : bool) (path out : string) (dotdot : nat),
    String.length path <= n →
    allBytes test path = true → allBytes test out = true →
    allBytes test (cleanLoop rooted path out dotdot) = true.
Proof.
  induction n as [|n IH]; intros rooted path out dotdot Hlen Hpath Hout.
  - destruct path; [exact Hout | simpl in Hlen; lia].
  - destruct path as [|c rest]; [exact Hout|].
    simpl in Hlen, Hpath. apply andb_true_iff in Hpath as [Hc Hrest].
    rewrite cleanLoop_cons.
    destruct (IsPathSeparator c); [apply IH; [lia | auto ..]|].
    destruct (isDot c && atElemEnd rest); [apply IH; [lia | auto ..]|].
    cbv zeta.
    assert (Helem :
      allBytes test
        (copyElement (λ p o, cleanLoop rooted p o dotdot) rest
           (append (if needSep rooted out then append out Separator else out) c))
      = true).
    { apply copyElement_allBytes; [|exact Hrest|].
      - intros p o Hp. apply IH. lia.
      - apply allBytes_push; [|exact Hc].
        destruct (needSep rooted out); [now apply allBytes_push | exact Hout]. }
    destruct rest as [|c2 rest2]; [exact Helem|].
    simpl in Hlen, Hrest. apply andb_true_iff in Hrest as [_ Hrest2].
    destruct (isDot c && isDot c2 && atElemEnd rest2); [|exact Helem].
    destruct (dotdot <? String.length out)%nat.
    + apply IH; [lia | exact Hrest2 | now apply allBytes_substring].
    + destruct (negb rooted).
      * apply IH; [lia | exact Hrest2 |].
        do 2 (apply allBytes_push; [|exact test_dot]).
        destruct (0 <? String.length out)%nat;
          [now apply allBytes_push | exact Hout].
      * apply IH; [lia | exact Hrest2 | exact Hout].
Qed.

Lemma Clean_allBytes (path : string) :
  allBytes test path = true → allBytes test (Clean path) = true.
Proof.
  intros Hpath. unfold Clean. destruct path as [|c rest].
  - simpl. now rewrite test_dot.
  - simpl in Hpath. apply andb_true_iff in Hpath as [Hc Hrest].
    assert (Hout : allBytes test
                     (if IsPathSeparator c
                      then cleanLoop true rest (String Separator "") 1
                      else cleanLoop false (String c rest) "" 0) = true).
    { destruct (IsPathSeparator c).
      - apply (cleanLoop_allBytes _ _ _ _ _ (le_n _) Hrest). simpl.
        now rewrite test_sep.
      - apply (cleanLoop_allBytes _ _ _ _ _ (le_n _)); [|reflexivity].
        simpl. now rewrite Hc. }
    destruct (String.length _ =? 0)%nat; [|exact Hout].
    simpl. now rewrite test_dot.
Qed.

Lemma strings_Join_allBytes (elems : list string) :
  forallb (allBytes test) elems = true →
  allBytes test (strings.Join elems (String Separator "")) = true.
Proof.
  induction elems as [|x l IH]; [reflexivity|]. simpl forallb.
  intros H. apply andb_true_iff in H as [Hx Hl].
  destruct l as [|y l]; [exact Hx|].
  rewrite Join_cons2, !allBytes_append, Hx, (IH Hl). simpl.
  now rewrite test_sep.
Qed.

Lemma Join_allBytes (elems : list string) :
  forallb (allBytes test) elems = true →
  allBytes test (filepath.Join elems) = true.
Proof.
  induction elems as [|x l IH]; [reflexivity|]. intros H.
  destruct (String.eqb_spec x "") as [->|Hne].
  - change (filepath.Join ("" :: l)) with (filepath.Join l).
    simpl in H. now apply IH.
  - rewrite (Join_nonEmpty_first x l Hne).
    now apply Clean_allBytes, strings_Join_allBytes.
Qed.

End CleanBytes.

Lemma sanitize_notSpace (s : string) : allBytes notSpace (sanitize s) = true.
Proof.
  induction s as [|c s IH]; [reflexivity|].
  rewrite sanitize_cons. simpl. rewrite IH, andb_true_r.
  unfold notSpace. apply negb_true_iff, Ascii.eqb_neq, sanitizeByte_not_space.
Qed.

Lemma allBytes_get (test : ascii → bool) (s : string) (i : nat) (c : ascii) :
  allBytes test s = true → String.get i s = Some c → test c = true.
Proof.
  revert i; induction s as [|d s IH]; intros i Hs Hget; [now destruct i|].
  simpl in Hs. apply andb_true_iff in Hs as [Hd Hs].
  destruct i as [|i]; simpl in Hget; [now injection Hget as <- | eauto].
Qed.

(** ** The properties *)

(** X1. [getGeoInfo] closes the file exactly when it opened it, and last:
    when [os.Open] fails, its error is returned and nothing else is
    called; when it succeeds, the file is decoded and then closed, whether
    the decoder or [LatLong] fails or not, and the result is the error of
    the failing step or the coordinates [LatLong] returns. *)
Theorem extractor_closes_what_it_opens {sys : Sys} (imagePath : string) (w : World) :
  (∀ (err : error) (w1 : World),
     os_Open imagePath w = (Err err, w1) →
     getGeoInfo imagePath w = (Err err, w1, [EvOpen imagePath]))
  ∧ (∀ (file : File) (w1 w2 : World) (r : result Exif),
       os_Open imagePath w = (Ok file, w1) →
       exif_Decode file w1 = (r, w2) →
       getGeoInfo imagePath w
       = (match r with
          | Ok x => Exif_LatLong x
          | Err err => Err err
          end,
          File_Close file w2, [EvOpen imagePath; EvDecode; EvClose])).
Proof.
  split.
  - intros err w1. apply getGeoInfo_open_fails.
  - intros file w1 w2 r. apply getGeoInfo_opened.
Qed.

(** The theorem in the test double: a missing file, and an image without
    GPS tag, which is closed all the same. *)
Lemma extractor_closes_witness :
  @getGeoInfo Mock.sys "images/missing.jpg" Mock.fixture
  = (Err (NewError "open images/missing.jpg: no such file or directory"),
     Mock.fixture, [EvOpen "images/missing.jpg"])
  ∧ @getGeoInfo Mock.sys "images/nogps.png" Mock.fixture
    = (Err (NewError "exif: tag GPSLatitude is not present"),
       Mock.fixture, [EvOpen "images/nogps.png"; EvDecode; EvClose]).
Proof.
  split.
  - exact (proj1 (@extractor_closes_what_it_opens Mock.sys "images/missing.jpg"
                    Mock.fixture) _ _ eq_refl).
  - exact (proj2 (@extractor_closes_what_it_opens Mock.sys "images/nogps.png"
                    Mock.fixture)
             (Mock.Image None) Mock.fixture Mock.fixture (Ok None) eq_refl eq_refl).
Defined.

(** X2. [getLocationDetails] closes the response body exactly when
    [http.Get] returned a response, as its last call, and reads the body
    only after a status 200: without a response nothing is closed; with a
    status other than 200 the body is closed unread; with a status 200 it
    is read once and closed, whether reading and decoding succeed or
    not. *)
Theorem response_body_closed_once {sys : Sys} (lat lon : float64) (w : World) :
  (∀ (err : error) (w1 : World),
     http_Get (geocodeURL lat lon) w = (Err err, w1) →
     getLocationDetails lat lon w = (Err err, w1, [EvGet (geocodeURL lat lon)]))
  ∧ (∀ (resp : Response ReadCloser) (w1 : World),
       http_Get (geocodeURL lat lon) w = (Ok resp, w1) →
       StatusCode resp ≠ 200%Z →
       (getLocationDetails lat lon w).1.2 = Body_Close (Body resp) w1
       ∧ (getLocationDetails lat lon w).2
         = [EvGet (geocodeURL lat lon); EvBodyClose])
  ∧ (∀ (resp : Response ReadCloser) (w1 w2 : World) (r : result string),
       http_Get (geocodeURL lat lon) w = (Ok resp, w1) →
       StatusCode resp = 200%Z →
       io_ReadAll (Body resp) w1 = (r, w2) →
       (getLocationDetails lat lon w).1.2 = Body_Close (Body resp) w2
       ∧ (getLocationDetails lat lon w).2
         = [EvGet (geocodeURL lat lon); EvReadAll; EvBodyClose]).
Proof.
  split; [|split].
  - intros err w1. apply getLocationDetails_no_response.
  - intros resp w1 Hget Hcode.
    now rewrite (getLocationDetails_not_OK _ _ _ _ _ Hget Hcode).
  - intros resp w1 w2 r. apply getLocationDetails_OK.
Qed.

(** The theorem in the test double: no route, a status 503, and a body
    that is read but has no address. *)
Lemma response_body_closed_witness :
  (@getLocationDetails Mock.sys Mock.F2_35 Mock.F2_35 Mock.fixture).2
  = [EvGet (Mock.url Mock.F2_35 Mock.F2_35)]
  ∧ (@getLocationDetails Mock.sys Mock.F51_5 Mock.Fm0_12 Mock.fixture).2
    = [EvGet (Mock.url Mock.F51_5 Mock.Fm0_12); EvBodyClose]
  ∧ (@getLocationDetails Mock.sys Mock.F2_35 Mock.F48_85 Mock.fixture).2
    = [EvGet (Mock.url Mock.F2_35 Mock.F48_85); EvReadAll; EvBodyClose].
Proof.
  split; [|split].
  - rewrite (proj1 (@response_body_closed_once Mock.sys Mock.F2_35 Mock.F2_35
                      Mock.fixture) _ _ eq_refl).
    reflexivity.
  - refine (proj2 (proj1 (proj2 (@response_body_closed_once Mock.sys
                      Mock.F51_5 Mock.Fm0_12 Mock.fixture))
              {| StatusCode := 503; Body := "Service Unavailable" |} Mock.fixture
              eq_refl _)).
    discriminate.
  - exact (proj2 (proj2 (proj2 (@response_body_closed_once Mock.sys
                      Mock.F2_35 Mock.F48_85 Mock.fixture))
              {| StatusCode := 200; Body := Mock.bodyNoAddress |}
              Mock.fixture Mock.fixture (Ok Mock.bodyNoAddress)
              eq_refl eq_refl eq_refl)).
Defined.

(** X3. When the directory cannot be listed, [processImages] logs the
    error and the process exits with status 1 without any other call.
    When it can be listed, the directory is listed once, [log.Fatal] is
    never called and [main] returns status 0, whatever happens to the
    files. [main] processes the directory [images]. *)
Theorem exit_status_follows_the_listing {sys : Sys} (directory : string) (w : World) :
  (∀ (err : error) (w1 : World),
     os_ReadDir directory w = (Err err, w1) →
     processImages directory w
     = (Exits 1, w1, [EvReadDir directory; EvFatal (Error err)]))
  ∧ (∀ (files : list DirEntry) (w1 : World),
       os_ReadDir directory w = (Ok files, w1) →
       (processImages directory w).1.1 = Returns
       ∧ (processImages directory w).2
         = EvReadDir directory :: (rangeFiles directory files w1).2
       ∧ countOf isReadDir (processImages directory w).2 = 1
       ∧ countOf isFatal (processImages directory w).2 = 0)
  ∧ (main w).1.1
    = match (processImages "images" w).1.1 with
      | Exits code => code
      | Returns => 0%Z
      end
  ∧ (main w).1.2 = (processImages "images" w).1.2
  ∧ (main w).2 = (processImages "images" w).2.
Proof.
  split; [|split].
  - intros err w1. apply processImages_fails.
  - intros files w1 Hdir.
    pose proof (rangeFiles_counts directory files w1) as Hc. cbv zeta in Hc.
    destruct Hc as (_ & _ & _ & _ & _ & _ & _ & _ & _ & _ & Hrd & Hft).
    rewrite (processImages_lists _ _ _ _ Hdir). cbn [fst snd].
    repeat split; [|]; unfold countOf in *; cbn [List.filter isReadDir isFatal];
      cbn [List.length]; lia.
  - unfold main; run_monad.
    destruct (processImages "images" w) as [[[|code] w1] evs]; run_monad;
      now rewrite app_nil_r.
Qed.

(** The theorem in the test double: a working directory without
    [images], and the fixture directory. *)
Lemma exit_status_witness :
  @main Mock.sysWithoutImages Mock.fixture
  = (1%Z, Mock.fixture,
     [EvReadDir "images"; EvFatal "open images: no such file or directory"])
  ∧ (@main Mock.sys Mock.fixture).1.1 = 0%Z.
Proof.
  destruct (@exit_status_follows_the_listing Mock.sysWithoutImages "images" Mock.fixture)
    as (Hfail & _ & Hcode & Hworld & Hcalls).
  destruct (@exit_status_follows_the_listing Mock.sys "images" Mock.fixture)
    as (_ & Hok & Hcode' & _).
  split.
  - specialize (Hfail _ _ eq_refl).
    rewrite Hfail in Hcode, Hworld, Hcalls. cbn [fst snd] in Hcode, Hworld, Hcalls.
    destruct (@main Mock.sysWithoutImages Mock.fixture) as [[code w1] evs].
    cbn [fst snd] in Hcode, Hworld, Hcalls. subst code w1 evs. reflexivity.
  - destruct (Hok _ _ eq_refl) as (Hret & _).
    rewrite Hret in Hcode'. exact Hcode'.
Defined.

(** X4. When no entry of the listing is a candidate, in particular when
    the directory is empty, the run makes no call besides listing the
    directory: nothing is opened, requested, created, renamed or printed,
    and the world is as the listing left it. *)
Theorem run_without_candidate_does_nothing {sys : Sys}
  (directory : string) (files : list DirEntry) (w w1 : World) :
  os_ReadDir directory w = (Ok files, w1) →
  List.filter isImage files = [] →
  processImages directory w = (Returns, w1, [EvReadDir directory]).
Proof.
  intros Hdir Hnone. rewrite (processImages_lists _ _ _ _ Hdir).
  now rewrite (rangeFiles_no_candidate directory files w1 Hnone).
Qed.

(** The theorem in the test double, on a directory with a text file, a
    subdirectory and an upper-case name. *)
Lemma run_without_candidate_witness :
  @processImages Mock.sys "images" Mock.textsOnly
  = (Returns, Mock.textsOnly, [EvReadDir "images"]).
Proof.
  exact (@run_without_candidate_does_nothing Mock.sys "images"
           (Mock.listing Mock.textsOnly) Mock.textsOnly Mock.textsOnly
           eq_refl eq_refl).
Defined.

(** X5. In every run the calls follow the pipeline: a file is renamed only
    after its directory was created, a directory is created only after a
    request to the geocoder, a request is sent only after an image was
    decoded, and an image is decoded only after it was opened; every
    decoded file is closed, no body is closed without a request and none
    is read without being closed. When the directory is listed, the
    files opened are its candidates, one call each, so the geocoder gets
    at most one request for each candidate. *)
Theorem calls_follow_the_pipeline {sys : Sys} (directory : string) (w : World) :
  let evs := (processImages directory w).2 in
  countOf isRename evs <= countOf isMkdirAll evs
  ∧ countOf isMkdirAll evs <= countOf isGet evs
  ∧ countOf isGet evs <= countOf isDecode evs
  ∧ countOf isDecode evs <= countOf isOpen evs
  ∧ countOf isClose evs = countOf isDecode evs
  ∧ countOf isBodyClose evs <= countOf isGet evs
  ∧ countOf isReadAll evs <= countOf isBodyClose evs
  ∧ (∀ (files : list DirEntry) (w1 : World),
       os_ReadDir directory w = (Ok files, w1) →
       countOf isOpen evs = List.length (List.filter isImage files)).
Proof.
  cbv zeta. destruct (os_ReadDir directory w) as [[files|err] w1] eqn:Hdir.
  - rewrite (processImages_lists _ _ _ _ Hdir). cbn [snd].
    pose proof (rangeFiles_counts directory files w1) as Hc. cbv zeta in Hc.
    unfold countOf in *. cbn [List.filter isRename isMkdirAll isGet isDecode isOpen
                              isClose isBodyClose isReadAll].
    repeat split; try lia.
    intros files' w1' [= <- <-]. lia.
  - rewrite (processImages_fails _ _ _ _ Hdir). cbn.
    repeat split; try lia. discriminate.
Qed.

(** The theorem on the fixture directory of the test double: four
    candidates are opened, three positions are requested, two files are
    renamed. *)
Lemma calls_follow_the_pipeline_witness :
  countOf isOpen (@processImages Mock.sys "images" Mock.fixture).2 = 4
  ∧ countOf isGet (@processImages Mock.sys "images" Mock.fixture).2 = 3
  ∧ countOf isRename (@processImages Mock.sys "images" Mock.fixture).2 = 2.
Proof.
  pose proof (@calls_follow_the_pipeline Mock.sys "images" Mock.fixture) as H.
  cbv zeta in H. destruct H as (_ & _ & _ & _ & _ & _ & _ & Hopen).
  split; [|split; reflexivity].
  rewrite (Hopen (Mock.listing Mock.fixture) Mock.fixture eq_refl). reflexivity.
Defined.

(** X6. When the directory is listed, every candidate is reported on
    standard output by at least one line, entries that are not candidates
    by none, and a second line is printed for a file only after the
    creation of its directory was attempted. When the directory cannot
    be listed, nothing is printed on standard output. *)
Theorem every_candidate_is_reported {sys : Sys} (directory : string) (w : World) :
  (∀ (files : list DirEntry) (w1 : World),
     os_ReadDir directory w = (Ok files, w1) →
     List.length (List.filter isImage files)
     <= countOf isStdout (processImages directory w).2
     ∧ countOf isStdout (processImages directory w).2
       <= List.length (List.filter isImage files)
          + countOf isMkdirAll (processImages directory w).2)
  ∧ (∀ (err : error) (w1 : World),
       os_ReadDir directory w = (Err err, w1) →
       countOf isStdout (processImages directory w).2 = 0).
Proof.
  split.
  - intros files w1 Hdir. rewrite (processImages_lists _ _ _ _ Hdir). cbn [snd].
    pose proof (rangeFiles_counts directory files w1) as Hc. cbv zeta in Hc.
    unfold countOf in *. cbn [List.filter isStdout isMkdirAll]. lia.
  - intros err w1 Hdir. now rewrite (processImages_fails _ _ _ _ Hdir).
Qed.

(** The theorem on the fixture directory when no directory can be
    created: four candidates, six lines. *)
Lemma every_candidate_is_reported_witness :
  4 <= countOf isStdout (@processImages Mock.sys "images" Mock.readOnlyFixture).2
  ∧ countOf isStdout (@processImages Mock.sys "images" Mock.readOnlyFixture).2 = 6
  ∧ countOf isStdout (@processImages Mock.sysWithoutImages "images" Mock.fixture).2 = 0.
Proof.
  split; [|split].
  - exact (proj1 (proj1 (@every_candidate_is_reported Mock.sys "images"
                           Mock.readOnlyFixture)
                    (Mock.listing Mock.readOnlyFixture) Mock.readOnlyFixture eq_refl)).
  - reflexivity.
  - exact (proj2 (@every_candidate_is_reported Mock.sysWithoutImages "images"
                    Mock.fixture) _ _ eq_refl).
Defined.

(** X7. The file keeps the name it has in the listing: for every
    directory and every entry whose name is a proper file name, the base
    of the path the driver opens is the name, and so is the base of the
    path the mover renames it to, for every Place. *)
Theorem moved_file_keeps_its_name (directory name : string)
  (location : gmap string string) :
  isName name = true →
  filepath.Base (filepath.Join [directory; name]) = name
  ∧ filepath.Base (newImagePath (filepath.Join [directory; name]) location) = name.
Proof.
  intros Hname. pose proof (base_of_image_path directory name Hname) as Hbase.
  split; [exact Hbase|].
  destruct (newImagePath_ends_with_base (filepath.Join [directory; name]) location)
    as (pre & Heq & Hpre); [now rewrite Hbase|].
  rewrite Heq, Hbase. now apply Base_of_name.
Qed.

(** The theorem for an absolute directory with a doubled separator and a
    Place that leaves [sorted_images]. *)
Lemma moved_file_keeps_its_name_witness :
  filepath.Base (filepath.Join ["/home//photos/"; "trip 1.jpg"]) = "trip 1.jpg"
  ∧ filepath.Base
      (newImagePath (filepath.Join ["/home//photos/"; "trip 1.jpg"])
         {[ "country" := ".."; "state" := "a/b" ]})
    = "trip 1.jpg".
Proof.
  exact (moved_file_keeps_its_name "/home//photos/" "trip 1.jpg"
           {[ "country" := ".."; "state" := "a/b" ]} eq_refl).
Defined.

(** X8. [sanitize] works byte by byte: it distributes over
    concatenation, it returns its argument unchanged exactly when the
    argument has no space, and it keeps what is a proper path element:
    the result is empty, [.], [..] or holds a separator exactly when the
    argument is or does. *)
Theorem sanitize_is_bytewise (s t : string) :
  sanitize (s ++ t) = sanitize s ++ sanitize t
  ∧ (sanitize s = s ↔ ∀ i : nat, String.get i s ≠ Some " "%char)
  ∧ isName (sanitize s) = isName s
  ∧ (sanitize s = "" ↔ s = "")
  ∧ (sanitize s = ".." ↔ s = "..")
  ∧ noSep (sanitize s) = noSep s.
Proof.
  split; [|split; [|split; [|split; [|split]]]].
  - induction s as [|c s IH]; [reflexivity|].
    now rewrite append_cons, !sanitize_cons, IH.
  - split.
    + intros Hfix i. rewrite <- Hfix, sanitize_get.
      destruct (String.get i s) as [c|]; simpl; [|discriminate].
      intros [= H]. exact (sanitizeByte_not_space c H).
    + induction s as [|c s IH]; intros Hns; [reflexivity|].
      rewrite sanitize_cons. f_equal.
      * apply sanitizeByte_fixed. intros ->. now apply (Hns 0).
      * apply IH. intros i. exact (Hns (S i)).
  - apply isName_sanitize.
  - apply sanitize_eq_dots.
  - apply sanitize_eq_dots.
  - apply noSep_sanitize.
Qed.

(** The theorem at a name without space. *)
Lemma sanitize_is_bytewise_witness : sanitize "Île-de-France" = "Île-de-France".
Proof.
  apply (proj1 (proj2 (sanitize_is_bytewise "Île-de-France" ""))).
  intros i. do 16 (destruct i as [|i]; [discriminate|]). discriminate.
Defined.

(** X9. A Place can leave [sorted_images]: when the country is [..] and
    the other three fields are names, the directory [moveImage] creates
    is [<state>/<state_district>/<county>] below the working directory,
    beside [sorted_images] and not below it. *)
Theorem dotdot_country_leaves_sorted_images {sys : Sys}
  (imagePath : string) (location : gmap string string) (w : World) :
  index location "country" = ".." →
  isName (index location "state") = true →
  isName (index location "state_district") = true →
  isName (index location "county") = true →
  folderPath location
  = sanitize (index location "state") ++ "/"
    ++ sanitize (index location "state_district") ++ "/"
    ++ sanitize (index location "county")
  ∧ ∃ rest : list Event,
      (moveImage imagePath location w).2
      = EvMkdirAll (sanitize (index location "state") ++ "/"
                    ++ sanitize (index location "state_district") ++ "/"
                    ++ sanitize (index location "county")) ModePerm :: rest.
Proof.
  intros Hc H2 H3 H4.
  pose proof (folderPath_dotdot location Hc H2 H3 H4) as Hpath.
  split; [exact Hpath|]. rewrite <- Hpath.
  destruct (moveImage_calls imagePath location w) as [-> | ->]; eauto.
Qed.

(** The theorem in the test double. *)
Lemma dotdot_country_witness :
  (@moveImage Mock.sys "images/trip.jpg"
     {[ "country" := ".."; "state" := "etc"; "state_district" := "cron d";
        "county" := "x" ]} Mock.fixture).2
  = [ EvMkdirAll "etc/cron_d/x" 511;
      EvRename "images/trip.jpg" "etc/cron_d/x/trip.jpg" ].
Proof.
  destruct (@dotdot_country_leaves_sorted_images Mock.sys "images/trip.jpg"
              {[ "country" := ".."; "state" := "etc"; "state_district" := "cron d";
                 "county" := "x" ]} Mock.fixture)
    as [_ [rest Hcalls]]; try reflexivity.
Defined.

(** X10. The whole path of a candidate: when its position is read, the
    service answers with an address object, each of the four fields
    (values printed with [%v], [Unknown] for a missing key) is a name,
    and the directory can be created, then the driver prints the line
    with the fields as they are and renames the file to
    [sorted_images/<country>/<state>/<state_district>/<county>/<name>]
    with the fields sanitized; a failure of the rename is printed. *)
Theorem candidate_is_moved_to_its_place {sys : Sys}
  (directory : string) (file : DirEntry) (w w1 w3 : World) (lat lon : float64)
  (evs1 : list Event) (address : gmap string (Value float64)) :
  isImage file = true →
  isName (Name file) = true →
  getGeoInfo (filepath.Join [directory; Name file]) w = (Ok (lat, lon), w1, evs1) →
  AnswersWith lat lon w1 address →
  (∀ key, key ∈ ["country"; "state"; "state_district"; "county"] →
     isName (getString address key) = true) →
  let dir :=
    "sorted_images/" ++ sanitize (getString address "country") ++ "/"
    ++ sanitize (getString address "state") ++ "/"
    ++ sanitize (getString address "state_district") ++ "/"
    ++ sanitize (getString address "county") in
  os_MkdirAll dir ModePerm (getLocationDetails lat lon w1).1.2 = (None, w3) →
  (loopBody directory file w).2
  = (evs1
     ++ [EvGet (geocodeURL lat lon); EvReadAll; EvBodyClose]
     ++ [ EvStdout ("Moving " ++ Name file ++ " to "
                    ++ getString address "country" ++ "/"
                    ++ getString address "state" ++ "/"
                    ++ getString address "state_district" ++ "/"
                    ++ getString address "county" ++ LF);
          EvMkdirAll dir ModePerm;
          EvRename (filepath.Join [directory; Name file]) (dir ++ "/" ++ Name file) ]
     ++ match (os_Rename (filepath.Join [directory; Name file])
                 (dir ++ "/" ++ Name file) w3).1 with
        | Some err => [EvStdout ("Error moving file: " ++ Error err ++ LF)]
        | None => []
        end)%list.
Proof.
  intros Himg Hname Hgeo Ha Hnames. cbv zeta. intros Hmk.
  pose proof (AnswersWith_result lat lon w1 address Ha) as Hres.
  destruct (getLocationDetails lat lon w1) as [[r w2] evs2] eqn:Hloc.
  cbn [fst snd] in Hres, Hmk. subst r.
  pose proof (getLocationDetails_Ok_calls _ _ _ _ _ _ Hloc) as ->.
  assert (Hidx : ∀ key, key ∈ placeKeys →
                        index (placeOf address) key = getString address key)
    by (intros key; apply index_placeOf_key).
  assert (Hkeys : ∀ key, key ∈ placeKeys → isName (index (placeOf address) key) = true).
  { intros key Hkey. rewrite (Hidx key Hkey). now apply Hnames. }
  assert (K1 : "country" ∈ placeKeys) by (unfold placeKeys; rewrite !elem_of_cons; tauto).
  assert (K2 : "state" ∈ placeKeys) by (unfold placeKeys; rewrite !elem_of_cons; tauto).
  assert (K3 : "state_district" ∈ placeKeys)
    by (unfold placeKeys; rewrite !elem_of_cons; tauto).
  assert (K4 : "county" ∈ placeKeys) by (unfold placeKeys; rewrite !elem_of_cons; tauto).
  destruct (folderPath_names (placeOf address)
              (Hkeys _ K1) (Hkeys _ K2) (Hkeys _ K3) (Hkeys _ K4)) as [Hpath _].
  rewrite !Hidx in Hpath by assumption.
  pose proof (newImagePath_names (filepath.Join [directory; Name file]) (placeOf address)
                (Hkeys _ K1) (Hkeys _ K2) (Hkeys _ K3) (Hkeys _ K4)) as Hnew.
  rewrite (base_of_image_path directory (Name file) Hname) in Hnew.
  specialize (Hnew Hname). rewrite Hpath in Hnew.
  rewrite <- Hpath in Hmk.
  pose proof (moveImage_renames (filepath.Join [directory; Name file])
                (placeOf address) w2 w3 Hmk) as Hmove.
  rewrite Hnew in Hmove.
  rewrite (loopBody_move _ _ _ _ _ _ _ _ _ _ _ _ _ Himg Hgeo Hloc Hmove).
  cbn [snd]. unfold movingLine. rewrite !Hidx by assumption. rewrite Hpath.
  rewrite !append_assoc. reflexivity.
Qed.

(** The theorem in the test double, for the image taken at sea: every
    field is [Unknown]. *)
Lemma candidate_is_moved_witness :
  (@loopBody Mock.sys "images" {| Name := "ocean.jpg"; IsDir := false |} Mock.fixture).2
  = [ EvOpen "images/ocean.jpg"; EvDecode; EvClose;
      EvGet (Mock.url Mock.F0 Mock.F0); EvReadAll; EvBodyClose;
      EvStdout ("Moving ocean.jpg to Unknown/Unknown/Unknown/Unknown" ++ LF);
      EvMkdirAll "sorted_images/Unknown/Unknown/Unknown/Unknown" 511;
      EvRename "images/ocean.jpg"
        "sorted_images/Unknown/Unknown/Unknown/Unknown/ocean.jpg" ].
Proof.
  rewrite (@candidate_is_moved_to_its_place Mock.sys "images"
             {| Name := "ocean.jpg"; IsDir := false |}
             Mock.fixture Mock.fixture Mock.fixture Mock.F0 Mock.F0
             [EvOpen "images/ocean.jpg"; EvDecode; EvClose] ∅
             eq_refl eq_refl eq_refl).
  - reflexivity.
  - exact (AddressFound (sys := Mock.sys) Mock.F0 Mock.F0 Mock.fixture
             {| StatusCode := 200; Body := Mock.bodyOcean |}
             Mock.fixture Mock.bodyOcean Mock.fixture
             {[ "address" := JObject ∅ ]} ∅ eq_refl eq_refl eq_refl eq_refl eq_refl).
  - intros key _. reflexivity.
  - reflexivity.
Defined.

(** X11. The directory [moveImage] creates holds no space, for every
    Place: every field is sanitized, and [Join] adds only separators and
    dots to the bytes of the fields. *)
Theorem destination_directory_has_no_space (location : gmap string string) (i : nat) :
  String.get i (folderPath location) ≠ Some " "%char.
Proof.
  intros Hget.
  assert (Hall : allBytes notSpace (folderPath location) = true).
  { unfold folderPath. apply Join_allBytes; [reflexivity | reflexivity|].
    simpl. now rewrite !sanitize_notSpace. }
  pose proof (allBytes_get _ _ _ _ Hall Hget) as H. discriminate.
Qed.
